(** * Sample-data generator of openapi-to-http

    A shallow embedding of [data-generator.ts] (the schema-driven sample
    generator), of [openapi-parser.ts] and of the file-name check of
    [extension.ts], followed by the properties stated about them.

    Modelling conventions.
    - JavaScript numbers are IEEE-754 binary64 values: Rocq's primitive
      [float]s, with their own arithmetic (rounding, infinities, NaN).
      Length and count fields ([minLength], [maxItems], ...) are integers
      ([Z]), as JSON Schema requires them to be.
    - A schema is the typed record the callers pass
      ([OpenAPIV3.SchemaObject | ReferenceObject]); an absent field is
      [None], and JavaScript truthiness of a present field is written out
      ([0], the empty string and [false] are falsy).  The values of the
      fields are free (contradictory bounds, negative lengths, unknown type
      names); a field holding a value of another JSON type would take the
      code through JavaScript's coercions, which are not embedded.  The
      [$ref] field is kept as any JSON value, since the code calls a string
      method on it.
    - An object is the list of its own enumerable properties, in the order
      they were added; its prototype is not part of the value.  The
      properties of a schema are given in the order of [Object.entries],
      which lists integer-like keys first, so the objects built from them
      have the engine's order.
    - The limits of an engine (the longest string, the depth of the call
      stack on schema trees, memory) are not embedded.
    - json-schema-faker ([jsf.generate]), [Math.random] and the clock are
      external: they are the fields of a [Runtime] interface over an abstract
      world state, threaded through every call.
    - Exceptions are explicit: a computation ends in [Normal v] or
      [Thrown e].
    - The generator is embedded twice: on schema trees, where it is a
      structural recursion and results are values; and on a heap
      ([Module Heap]), where schemas are shared mutable objects and results
      are built by mutation, for the property that the input is left as it
      was. *)

From Stdlib Require Import ZArith String Ascii List Lia.
From Stdlib Require Import Floats Uint63.
From stdpp Require Import base option list strings gmap pretty.

Set Warnings "-register-all,-inexact-float".
Open Scope Z_scope.

(** ** Values *)

(** JSON-like JavaScript values, as found inside a parsed document and as
    produced by the generator.  Objects keep their keys in order. *)
Inductive JsVal : Type :=
| JNull
| JBool (b : bool)
| JNum (x : float)
| JStr (s : string)
| JArr (elems : list JsVal)
| JObj (fields : list (string * JsVal)).

(** ** Schemas *)

Inductive Schema : Type := mkSchema {
  s_ref : option JsVal;                       (* $ref *)
  s_example : option JsVal;                   (* example; None is undefined *)
  s_examples : option JsVal;                  (* examples *)
  s_type : option string;                     (* type *)
  s_enum : option (list JsVal);               (* enum *)
  s_format : option string;
  s_pattern : option string;
  s_minimum : option float;
  s_maximum : option float;
  s_exclusiveMinimum : option float;
  s_exclusiveMaximum : option float;
  s_multipleOf : option float;
  s_minLength : option Z;
  s_maxLength : option Z;
  s_minItems : option Z;
  s_maxItems : option Z;
  s_items : option Schema;
  s_properties : option (list (string * Schema));
  s_required : option (list string);
  s_additionalProperties : option (bool + Schema)
}.

(** The schema with no field set, [{}]. *)
Definition emptySchema : Schema :=
  mkSchema None None None None None None None None None None
           None None None None None None None None None None.

(** ** JavaScript primitives used by the generator *)

Module Js.

(** Truthiness of an optional string field: absent and [""] are falsy. *)
Definition truthy_str (o : option string) : bool :=
  match o with
  | Some (String _ _) => true
  | _ => false
  end.

(** [x || d] on an optional integer field: absent and [0] give [d]. *)
Definition or_default (o : option Z) (d : Z) : Z :=
  match o with
  | Some n => if n =? 0 then d else n
  | None => d
  end.

(** Truthiness of a number: [0], [-0] and NaN are falsy. *)
Definition truthy_float (x : float) : bool :=
  negb (PrimFloat.eqb x 0 || PrimFloat.is_nan x).

(** Truthiness of an optional number field. *)
Definition truthy_num (o : option float) : bool :=
  match o with
  | Some x => truthy_float x
  | None => false
  end.

(** Truthiness of a value. *)
Definition truthy (v : JsVal) : bool :=
  match v with
  | JNull => false
  | JBool b => b
  | JNum x => truthy_float x
  | JStr s => truthy_str (Some s)
  | JArr _ | JObj _ => true
  end.

(** Truthiness of an optional field holding any value. *)
Definition truthy_val (o : option JsVal) : bool :=
  match o with
  | Some v => truthy v
  | None => false
  end.

(** The number that is the integer [n] (exact for [|n| <= 2^53]). *)
Definition ofZ (n : Z) : float :=
  let a := PrimFloat.of_uint63 (Uint63.of_Z (Z.abs n)) in
  if n <? 0 then PrimFloat.opp a else a.

(** The integer a number is, if it is one. *)
Definition integerOf (x : float) : option Z :=
  match Prim2SF x with
  | S754_zero _ => Some 0
  | S754_finite s m e =>
      let sm := if s then Z.neg m else Z.pos m in
      if 0 <=? e then Some (sm * 2 ^ e)
      else if Z.pos m mod 2 ^ (- e) =? 0 then Some (sm / 2 ^ (- e))
      else None
  | _ => None
  end.

(** [Math.round]: a number that is not finite, a zero and an integral
    number are returned as they are (from [2^52] on every number is
    integral); otherwise the closest integer, the larger one on a tie,
    which is [floor (x + 1/2)] computed exactly, with the sign of [x] when
    it is zero. *)
Definition round (x : float) : float :=
  match Prim2SF x with
  | S754_finite s m e =>
      if PrimFloat.leb 0x1p52 (PrimFloat.abs x) then x
      else
        let sm := if s then Z.neg m else Z.pos m in
        let n := if 0 <=? e then sm * 2 ^ e
                 else (2 * sm + 2 ^ (- e)) / 2 ^ (1 - e) in
        if n =? 0 then (if s then neg_zero else zero) else ofZ n
  | _ => x
  end.

(** [s.split(sep)] for a one-character separator: the pieces between the
    separators, always at least one. *)
Fixpoint split (sep : ascii) (s : string) : list string :=
  match s with
  | EmptyString => [EmptyString]
  | String c rest =>
      if Ascii.eqb c sep then EmptyString :: split sep rest
      else match split sep rest with
           | [] => [String c EmptyString]
           | p :: ps => String c p :: ps
           end
  end.

(** [n] characters of [filler] repeated for ever, starting inside the
    current copy at [cur]. *)
Fixpoint fill (filler cur : string) (n : nat) : string :=
  match n with
  | O => EmptyString
  | S n' =>
      match cur with
      | String c r => String c (fill filler r n')
      | EmptyString =>
          match filler with
          | String c r => String c (fill filler r n')
          | EmptyString => EmptyString
          end
      end
  end.

(** [s.padEnd(target, filler)]: a target below the length (or negative)
    leaves [s] as it is. *)
Definition padEnd (s : string) (target : Z) (filler : string) : string :=
  let len := Z.of_nat (String.length s) in
  if target <=? len then s
  else (s +:+ fill filler filler (Z.to_nat (target - len)))%string.

(** [s.substring(0, e)]: [e] is clamped to [0 .. length]. *)
Definition substring0 (s : string) (e : Z) : string :=
  String.substring 0 (Z.to_nat e) s.

(** Setting the key [k] of a list of properties: an existing key keeps its
    place, a new one goes last. *)
Fixpoint setOwn {V} (k : string) (v : V) (o : list (string * V))
  : list (string * V) :=
  match o with
  | [] => [(k, v)]
  | (k', v') :: o' =>
      if String.eqb k' k then (k', v) :: o' else (k', v') :: setOwn k v o'
  end.

(** [o[k] = v] on an ordinary object, given as its own properties in the
    order they were added.  The key ["__proto__"] is the accessor inherited
    from [Object.prototype]: the assignment sets the prototype (or does
    nothing) and creates no own property. *)
Definition set {V} (k : string) (v : V) (o : list (string * V))
  : list (string * V) :=
  if String.eqb k "__proto__" then o else setOwn k v o.

(** [arr.includes(x)] on an array of strings. *)
Definition includes (arr : list string) (x : string) : bool :=
  existsb (String.eqb x) arr.

End Js.

(** ** Computations: world state and exceptions *)

Inductive Completion (A : Type) : Type :=
| Normal (a : A)
| Thrown (e : JsVal).
Arguments Normal {A} a.
Arguments Thrown {A} e.

(** A computation over the world [W]. *)
Definition M (W A : Type) : Type := W -> Completion A * W.

Definition ret {W A} (a : A) : M W A := fun w => (Normal a, w).

Definition bind {W A B} (m : M W A) (k : A -> M W B) : M W B :=
  fun w =>
    match m w with
    | (Normal a, w') => k a w'
    | (Thrown e, w') => (Thrown e, w')
    end.

(** [try { m } catch (error) { h }]. *)
Definition try_catch {W A} (m : M W A) (h : JsVal -> M W A) : M W A :=
  fun w =>
    match m w with
    | (Normal a, w') => (Normal a, w')
    | (Thrown e, w')  => h e w'
    end.

Declare Scope js_scope.
Delimit Scope js_scope with js.
Notation "x <- m ;; k" := (bind m (fun x => k))
  (at level 100, m at next level, right associativity) : js_scope.

(** The [TypeError] of calling a method a value does not have. *)
Definition typeError (what : string) : JsVal :=
  JStr ("TypeError: " +:+ what +:+ " is not a function")%string.

(** The external collaborators of the generator. *)
Class Runtime (W : Type) : Type := {
  (** [jsf.generate(schema)]: may return any value or throw. *)
  jsf_generate : Schema -> M W JsVal;
  (** [Math.random()]. *)
  Math_random : W -> float * W;
  (** [new Date().toISOString()]. *)
  Date_toISOString : W -> string
}.

(** ** The generator *)

Section Generator.
Context {W : Type} `{RT : Runtime W}.
Local Open Scope js_scope.

(** [generateSampleFromRef]: the placeholder [{ id: 1, name }] named after
    the last path segment of the reference.  [ref.split] exists on a string
    only: for any other value the call throws. *)
Definition generateSampleFromRef (ref : JsVal) : Completion JsVal :=
  match ref with
  | JStr ref =>
      let parts := Js.split "/" ref in
      let componentName := List.last parts EmptyString in
      Normal (JObj [("id", JNum 1); ("name", JStr componentName)]%string)
  | _ => Thrown (typeError "ref.split")
  end.

(** [generateString].  [now] is the clock reading used by the date formats. *)
Definition generateString (now : string) (schema : Schema) : JsVal :=
  match s_enum schema with
  | Some (e0 :: _) => e0
  | _ =>
      let by_length :=
        let minLength := Js.or_default (s_minLength schema) 3 in
        let maxLength := Js.or_default (s_maxLength schema) 10 in
        let length := Z.min maxLength (Z.max minLength 5) in
        JStr (Js.substring0 (Js.padEnd "example" length "x") length) in
      let by_pattern :=
        if Js.truthy_str (s_pattern schema)
        then JStr "string-matching-pattern"
        else by_length in
      match s_format schema with
      | Some f =>
          if String.eqb f "date" then
            JStr (List.hd EmptyString (Js.split "T" now))
          else if String.eqb f "date-time" then JStr now
          else if String.eqb f "email" then JStr "user@example.com"
          else if String.eqb f "uri" || String.eqb f "url"
               then JStr "https://example.com"
          else if String.eqb f "uuid"
               then JStr "123e4567-e89b-12d3-a456-426614174000"
          else if String.eqb f "ipv4" then JStr "192.168.1.1"
          else if String.eqb f "ipv6"
               then JStr "2001:0db8:85a3:0000:0000:8a2e:0370:7334"
          else by_pattern
      | None => by_pattern
      end
  end.

(** [a ?? b ?? d] on optional numbers. *)
Definition coalesce (a b : option float) (d : float) : float :=
  match a with
  | Some x => x
  | None => match b with Some y => y | None => d end
  end.

(** The number computed by [generateNumber] when there is no enum. *)
Definition numberValue (schema : Schema) : float :=
  let minimum := coalesce (s_minimum schema) (s_exclusiveMinimum schema) 0 in
  let maximum :=
    coalesce (s_maximum schema) (s_exclusiveMaximum schema) 100 in
  let value := (minimum + (maximum - minimum) / 2)%float in
  let value :=
    match s_exclusiveMinimum schema with
    | Some e => if PrimFloat.leb value e then (e + 1)%float else value
    | None => value
    end in
  let value :=
    match s_exclusiveMaximum schema with
    | Some e => if PrimFloat.leb e value then (e - 1)%float else value
    | None => value
    end in
  let value :=
    match s_multipleOf schema with
    | Some m =>
        if Js.truthy_num (Some m) then (Js.round (value / m) * m)%float
        else value
    | None => value
    end in
  match s_type schema with
  | Some t => if String.eqb t "integer" then Js.round value else value
  | None => value
  end.

(** [generateNumber]. *)
Definition generateNumber (schema : Schema) : JsVal :=
  match s_enum schema with
  | Some (e0 :: _) => e0
  | _ => JNum (numberValue schema)
  end.

(** The [for] loop of [generateArray]: [n] pushes of [gen items]. *)
Fixpoint pushItems (gen : M W JsVal) (n : nat) (items : list JsVal)
  : M W (list JsVal) :=
  match n with
  | O => ret items
  | S n' => v <- gen ;; pushItems gen n' (items ++ [v])
  end.

(** The number of elements [generateArray] asks for. *)
Definition itemCount (schema : Schema) : Z :=
  let minItems := Js.or_default (s_minItems schema) 1 in
  let maxItems := Js.or_default (s_maxItems schema) 3 in
  Z.min maxItems (Z.max minItems 2).

(** [generateArray], with the recursive call on the items as [rec]. *)
Definition generateArray (rec : Schema -> M W JsVal) (schema : Schema)
  : M W JsVal :=
  match s_items schema with
  | Some items =>
      l <- pushItems (rec items) (Z.to_nat (itemCount schema)) [] ;;
      ret (JArr l)
  | None => ret (JArr [])
  end.

(** [required.includes(propName) || Math.random() > 0.3]: the draw is
    made only for a property that is not required. *)
Definition includeProperty (required : list string) (propName : string)
  : M W bool :=
  fun w =>
    if Js.includes required propName then (Normal true, w)
    else let '(r, w') := Math_random w in
         (Normal (PrimFloat.ltb 0.3 r), w').

(** The [for ... of Object.entries(schema.properties)] loop of
    [generateObject]. *)
Fixpoint fillProperties (rec : Schema -> M W JsVal) (required : list string)
    (props : list (string * Schema)) (obj : list (string * JsVal))
  : M W (list (string * JsVal)) :=
  match props with
  | [] => ret obj
  | (propName, propSchema) :: rest =>
      inc <- includeProperty required propName ;;
      if (inc : bool) then
        v <- rec propSchema ;;
        fillProperties rec required rest (Js.set propName v obj)
      else fillProperties rec required rest obj
  end.

(** [generateObject], with the recursive call as [rec]. *)
Definition generateObject (rec : Schema -> M W JsVal) (schema : Schema)
  : M W JsVal :=
  obj <- match s_properties schema with
         | Some props =>
             let required := default [] (s_required schema) in
             fillProperties rec required props []
         | None => ret []
         end ;;
  match s_additionalProperties schema with
  | Some (inl true) =>
      ret (JObj (Js.set "additionalProperty" (JStr "value") obj))
  | Some (inr ap) =>
      v <- rec ap ;;
      ret (JObj (Js.set "additionalProperty" v obj))
  | _ => ret (JObj obj)
  end.

(** [generateSimpleSample], with the recursive call as [rec]. *)
Definition generateSimpleSample (rec : Schema -> M W JsVal)
    (schema : Schema) : M W JsVal :=
  if Js.truthy_str (s_type schema) then
    let t := default EmptyString (s_type schema) in
    if String.eqb t "string" then
      fun w => (Normal (generateString (Date_toISOString w) schema), w)
    else if String.eqb t "number" || String.eqb t "integer" then
      ret (generateNumber schema)
    else if String.eqb t "boolean" then ret (JBool true)
    else if String.eqb t "array" then generateArray rec schema
    else if String.eqb t "object" then generateObject rec schema
    else ret JNull
  else ret JNull.

(** [generateSampleData] on a schema that is not null. *)
Fixpoint generateSampleNode (schema : Schema) {struct schema} : M W JsVal :=
  if Js.truthy_val (s_ref schema) then
    fun w => (generateSampleFromRef (default JNull (s_ref schema)), w)
  else
    match s_example schema with
    | Some ex => ret ex
    | None =>
        match s_examples schema with
        | Some (JArr (ex0 :: _)) => ret ex0
        | _ =>
            try_catch (jsf_generate schema)
              (fun _ => generateSimpleSample generateSampleNode schema)
        end
    end.

(** [generateSampleData]: a null or undefined schema gives [null]. *)
Definition generateSampleData (schema : option Schema) : M W JsVal :=
  match schema with
  | None => ret JNull
  | Some s => generateSampleNode s
  end.

End Generator.

(** ** The parsed document and [getBaseUrl] *)

Record ServerObject : Type := mkServer { url : string }.

Record Document : Type := mkDocument {
  servers : option (list ServerObject)
}.

(** [getBaseUrl]. *)
Definition getBaseUrl (spec : Document) : string :=
  match servers spec with
  | Some (server0 :: _) => url server0
  | _ => "http://localhost"
  end.

(** ** Concrete runtimes

    The world is the list of the coming [Math.random] draws (an exhausted
    list draws [0]). *)

Definition drawFrom (w : list float) : float * list float :=
  match w with
  | [] => (0%float, [])
  | r :: w' => (r, w')
  end.

(** A runtime whose [jsf.generate] always throws. *)
Definition throwingRuntime : Runtime (list float) := {|
  jsf_generate := fun _ w => (Thrown (JStr "jsf failed"), w);
  Math_random := drawFrom;
  Date_toISOString := fun _ => "2025-11-26T10:30:00.000Z"%string
|}.

(** A runtime whose [jsf.generate] always returns the value [v]. *)
Definition constantRuntime (v : JsVal) : Runtime (list float) := {|
  jsf_generate := fun _ w => (Normal v, w);
  Math_random := drawFrom;
  Date_toISOString := fun _ => "2025-11-26T10:30:00.000Z"%string
|}.

(** ** The generator over a heap

    The schema handed to [generateSampleData] is a reference to an object
    the caller still holds, and the generator builds its arrays and objects
    by mutation ([items.push], [obj[propName] = ...]).  This second embedding
    keeps that store.  Every object and every array, those of the schema
    included (its nodes, its [properties] object, its [enum], [required] and
    [examples] arrays, an example that is an object), is a cell of a heap
    that any code holding its reference can write to, and the world of a
    computation is the heap together with the runtime's own state.  Only
    primitive values (null, booleans, numbers, strings) are data.  The
    recursion is bounded by the depth of the call stack: a schema graph may
    be cyclic. *)

Module Heap.

Definition loc : Type := positive.

(** A value at run time: a primitive value ([HVal], which also takes an
    array or object nobody writes to), or a reference into the heap. *)
Inductive hval : Type :=
| HVal (v : JsVal)
| HRef (l : loc).

(** A cell: an array with its elements, or an ordinary object with its own
    properties. *)
Inductive cell : Type :=
| CArr (elems : list hval)
| CObj (fields : list (string * hval)).

Abbreviation heap := (gmap loc cell).

(** What the generator reads from a schema object: its scalar fields and
    the names in [required] ([sc_fields], whose other fields are not used),
    the values it hands on as they are, and the references to its nested
    nodes. *)
Record SchemaCell : Type := mkCell {
  sc_fields : Schema;
  sc_example : option hval;               (* example *)
  sc_examples0 : option hval;             (* examples[0] of a non-empty array *)
  sc_enum0 : option hval;                 (* enum[0] of a non-empty enum *)
  sc_items : option loc;
  sc_properties : option (list (string * loc));
  sc_additionalProperties : option (bool + loc)
}.

(** The record of the scalar fields of a schema object. *)
Definition scalarFields (ref : option JsVal) (type format pattern : option string)
    (minimum maximum exclusiveMinimum exclusiveMaximum multipleOf
       : option float)
    (minLength maxLength minItems maxItems : option Z)
    (required : option (list string)) : Schema :=
  mkSchema ref None None type None format pattern minimum maximum
           exclusiveMinimum exclusiveMaximum multipleOf minLength maxLength
           minItems maxItems None None required None.

(** [o[k]] on the own properties of an object. *)
Definition getField (k : string) (o : list (string * hval)) : option hval :=
  snd <$> List.find (fun kv => String.eqb (fst kv) k) o.

(** *** The typed view of a schema object

    The scalar fields of a schema object are read at the types of
    [OpenAPIV3.SchemaObject | ReferenceObject]; an object with a scalar
    field of another type is not a schema of this embedding ([decode] gives
    [None]).  [$ref], [example], [examples] and [enum] are read as any
    value. *)

(** [schema.$ref], as far as the generator can tell values apart: an object
    or array is truthy and has no [split]. *)
Definition asRef (v : hval) : option JsVal :=
  match v with
  | HVal x => Some x
  | HRef _ => Some (JObj [])
  end.

Definition asString (v : hval) : option string :=
  match v with HVal (JStr s) => Some s | _ => None end.

Definition asNumber (v : hval) : option float :=
  match v with HVal (JNum x) => Some x | _ => None end.

Definition asInteger (v : hval) : option Z :=
  match v with HVal (JNum x) => Js.integerOf x | _ => None end.

Definition asLoc (v : hval) : option loc :=
  match v with HRef l => Some l | HVal _ => None end.

Definition asFlagOrLoc (v : hval) : option (bool + loc) :=
  match v with
  | HVal (JBool b) => Some (inl b)
  | HRef l => Some (inr l)
  | _ => None
  end.

(** The strings of the array [schema.required]; [includes] finds a name
    among its string elements only. *)
Definition asStrings (h : heap) (v : hval) : option (list string) :=
  match v with
  | HRef a =>
      match h !! a with
      | Some (CArr elems) => Some (omap asString elems)
      | _ => None
      end
  | HVal (JArr l) => Some (omap (fun x => asString (HVal x)) l)
  | HVal _ => None
  end.

(** [Object.entries(schema.properties)]: the properties object is read from
    the heap. *)
Definition asProperties (h : heap) (v : hval)
  : option (list (string * loc)) :=
  match v with
  | HRef p =>
      match h !! p with
      | Some (CObj entries) =>
          mapM (fun kv => pair (fst kv) <$> asLoc (snd kv)) entries
      | _ => None
      end
  | HVal _ => None
  end.

(** [x[0]] when [x && x.length > 0], for [x = schema.enum]: the first
    element of a non-empty array, the first character of a non-empty
    string. *)
Definition firstOf (h : heap) (v : hval) : option (option hval) :=
  match v with
  | HRef a =>
      match h !! a with
      | Some (CArr elems) => Some (head elems)
      | Some (CObj fields) =>
          match getField "length" fields with
          | None => Some None
          | Some _ => None
          end
      | None => None
      end
  | HVal (JStr (String c _)) => Some (Some (HVal (JStr (String c ""))))
  | HVal (JArr l) => Some (HVal <$> head l)
  | HVal (JObj fields) =>
      if existsb (fun kv => String.eqb (fst kv) "length") fields then None
      else Some None
  | HVal _ => Some None
  end.

(** [x[0]] when [x && Array.isArray(x) && x.length > 0], for
    [x = schema.examples]. *)
Definition firstOfArray (h : heap) (v : hval) : option (option hval) :=
  match v with
  | HRef a =>
      match h !! a with
      | Some (CArr elems) => Some (head elems)
      | Some (CObj _) => Some None
      | None => None
      end
  | HVal (JArr l) => Some (HVal <$> head l)
  | HVal _ => Some None
  end.

(** A field that may be absent. *)
Definition field {A} (read : hval -> option A) (k : string)
    (o : list (string * hval)) : option (option A) :=
  match getField k o with
  | None => Some None
  | Some v => Some <$> read v
  end.

Definition decode (h : heap) (o : list (string * hval)) : option SchemaCell :=
  ref ← field asRef "$ref" o;
  examples0 ← field (firstOfArray h) "examples" o;
  type ← field asString "type" o;
  enum0 ← field (firstOf h) "enum" o;
  format ← field asString "format" o;
  pattern ← field asString "pattern" o;
  minimum ← field asNumber "minimum" o;
  maximum ← field asNumber "maximum" o;
  exclusiveMinimum ← field asNumber "exclusiveMinimum" o;
  exclusiveMaximum ← field asNumber "exclusiveMaximum" o;
  multipleOf ← field asNumber "multipleOf" o;
  minLength ← field asInteger "minLength" o;
  maxLength ← field asInteger "maxLength" o;
  minItems ← field asInteger "minItems" o;
  maxItems ← field asInteger "maxItems" o;
  items ← field asLoc "items" o;
  properties ← field (asProperties h) "properties" o;
  required ← field (asStrings h) "required" o;
  additionalProperties ← field asFlagOrLoc "additionalProperties" o;
  Some (mkCell
          (scalarFields ref type format pattern minimum maximum
             exclusiveMinimum exclusiveMaximum multipleOf minLength
             maxLength minItems maxItems required)
          (getField "example" o) (mjoin examples0) (mjoin enum0)
          items properties additionalProperties).

(** An array read as a schema: it has none of the fields. *)
Definition arrayAsSchema : SchemaCell :=
  mkCell emptySchema None None None None None None.

(** The external collaborators; [jsf.generate] receives the reference to
    the schema and runs on the heap, where it may read and write any cell. *)
Class Runtime (W : Type) : Type := {
  jsf_generate : loc -> M (heap * W) hval;
  Math_random : W -> float * W;
  Date_toISOString : W -> string
}.

(** *** Operations on the heap *)

Section Store.
Context {W : Type}.

Definition throw {A} (e : string) : M (heap * W) A :=
  fun st => (Thrown (JStr e), st).

(** An access this embedding does not follow. *)
Definition unsupported {A} (what : string) : M (heap * W) A :=
  throw ("not modelled: " +:+ what).

(** A new array or object literal. *)
Definition alloc (c : cell) : M (heap * W) loc :=
  fun st =>
    let l := fresh (dom st.1) in
    (Normal l, (<[l := c]> st.1, st.2)).

(** Reading the fields of the schema object at [l]. *)
Definition readSchema (l : loc) : M (heap * W) SchemaCell :=
  fun st =>
    match st.1 !! l with
    | Some (CObj fields) =>
        match decode st.1 fields with
        | Some node => (Normal node, st)
        | None => unsupported "a schema field of another type" st
        end
    | Some (CArr _) => (Normal arrayAsSchema, st)
    | None => unsupported "a dangling reference" st
    end.

(** [arr.push(v)] on the cell at [l]; an ordinary object has no [push]. *)
Definition push (l : loc) (v : hval) : M (heap * W) unit :=
  fun st =>
    match st.1 !! l with
    | Some (CArr elems) =>
        (Normal tt, (<[l := CArr (elems ++ [v])]> st.1, st.2))
    | Some (CObj _) => (Thrown (typeError "items.push"), st)
    | None => unsupported "a dangling reference" st
    end.

(** The index an array key stands for, among [0 .. n]. *)
Definition arrayIndex (k : string) (n : nat) : option nat :=
  List.find (fun i => String.eqb (pretty i) k) (seq 0 (S n)).

(** [obj[k] = v] on the cell at [l]: on an object, whichever code created
    it; on an array, for an index up to its length. *)
Definition assign (l : loc) (k : string) (v : hval) : M (heap * W) unit :=
  fun st =>
    match st.1 !! l with
    | Some (CObj fields) =>
        (Normal tt, (<[l := CObj (Js.set k v fields)]> st.1, st.2))
    | Some (CArr elems) =>
        match arrayIndex k (length elems) with
        | Some i =>
            let elems' :=
              if (i <? length elems)%nat then <[i := v]> elems
              else elems ++ [v] in
            (Normal tt, (<[l := CArr elems']> st.1, st.2))
        | None => unsupported "a named property of an array" st
        end
    | None => unsupported "a dangling reference" st
    end.

End Store.

Section Generator.
Context {W : Type} `{RT : Runtime W}.
Local Open Scope js_scope.

(** [generateSampleFromRef]: a new object [{ id: 1, name }]; a [ref] that
    is no string has no [split]. *)
Definition generateSampleFromRef (ref : JsVal) : M (heap * W) hval :=
  match ref with
  | JStr ref =>
      let parts := Js.split "/" ref in
      let componentName := List.last parts EmptyString in
      l <- alloc (CObj [("id", HVal (JNum 1));
                        ("name", HVal (JStr componentName))]%string) ;;
      ret (HRef l)
  | _ => fun st => (Thrown (typeError "ref.split"), st)
  end.

(** The [for] loop of [generateArray]: [schema.items] is read at each
    turn. *)
Fixpoint pushItems (rec : option loc -> M (heap * W) hval) (schema : loc)
    (n : nat) (items : loc) : M (heap * W) unit :=
  match n with
  | O => ret tt
  | S n' =>
      node <- readSchema schema ;;
      v <- rec (sc_items node) ;;
      _ <- push items v ;;
      pushItems rec schema n' items
  end.

(** [generateArray]. *)
Definition generateArray (rec : option loc -> M (heap * W) hval)
    (schema : loc) : M (heap * W) hval :=
  node <- readSchema schema ;;
  let count := itemCount (sc_fields node) in
  items <- alloc (CArr []) ;;
  _ <- match sc_items node with
       | Some _ => pushItems rec schema (Z.to_nat count) items
       | None => ret tt
       end ;;
  ret (HRef items).

Definition includeProperty (required : list string) (propName : string)
  : M (heap * W) bool :=
  fun st =>
    if Js.includes required propName then (Normal true, st)
    else let '(r, w') := Math_random st.2 in
         (Normal (PrimFloat.ltb 0.3 r), (st.1, w')).

(** The loop of [generateObject] over [Object.entries(schema.properties)]. *)
Fixpoint fillProperties (rec : option loc -> M (heap * W) hval)
    (required : list string) (props : list (string * loc)) (obj : loc)
  : M (heap * W) unit :=
  match props with
  | [] => ret tt
  | (propName, propSchema) :: rest =>
      inc <- includeProperty required propName ;;
      _ <- (if (inc : bool) then
              v <- rec (Some propSchema) ;;
              assign obj propName v
            else ret tt) ;;
      fillProperties rec required rest obj
  end.

(** [generateObject]; [schema.additionalProperties] is read after the
    loop. *)
Definition generateObject (rec : option loc -> M (heap * W) hval)
    (schema : loc) : M (heap * W) hval :=
  obj <- alloc (CObj []) ;;
  node <- readSchema schema ;;
  _ <- match sc_properties node with
       | Some props =>
           let required := default [] (s_required (sc_fields node)) in
           fillProperties rec required props obj
       | None => ret tt
       end ;;
  node <- readSchema schema ;;
  _ <- match sc_additionalProperties node with
       | Some (inl true) => assign obj "additionalProperty" (HVal (JStr "value"))
       | Some (inr ap) =>
           v <- rec (Some ap) ;;
           assign obj "additionalProperty" v
       | _ => ret tt
       end ;;
  ret (HRef obj).

(** The head of [generateString] and [generateNumber]: the first member of
    a non-empty enum is handed on as it is; otherwise the value is the one
    computed from the scalar fields. *)
Definition enumOr (node : SchemaCell) (computed : M (heap * W) hval)
  : M (heap * W) hval :=
  match sc_enum0 node with
  | Some e0 => ret e0
  | None => computed
  end.

(** [generateSimpleSample]. *)
Definition generateSimpleSample (rec : option loc -> M (heap * W) hval)
    (schema : loc) : M (heap * W) hval :=
  node <- readSchema schema ;;
  let fields := sc_fields node in
  if Js.truthy_str (s_type fields) then
    let t := default EmptyString (s_type fields) in
    if String.eqb t "string" then
      enumOr node
        (fun st =>
           (Normal (HVal (generateString (Date_toISOString st.2) fields)), st))
    else if String.eqb t "number" || String.eqb t "integer" then
      enumOr node (ret (HVal (generateNumber fields)))
    else if String.eqb t "boolean" then ret (HVal (JBool true))
    else if String.eqb t "array" then generateArray rec schema
    else if String.eqb t "object" then generateObject rec schema
    else ret (HVal JNull)
  else ret (HVal JNull).

(** [generateSampleData]; [depth] is the room left on the call stack, and
    running out of it throws, as the engine does. *)
Fixpoint generateSampleData (depth : nat) (schema : option loc)
  : M (heap * W) hval :=
  match depth with
  | O => throw "RangeError: Maximum call stack size exceeded"
  | S depth' =>
      match schema with
      | None => ret (HVal JNull)
      | Some l =>
          node <- readSchema l ;;
          let fields := sc_fields node in
          if Js.truthy_val (s_ref fields) then
            generateSampleFromRef (default JNull (s_ref fields))
          else
            match sc_example node with
            | Some ex => ret ex
            | None =>
                match sc_examples0 node with
                | Some ex0 => ret ex0
                | None =>
                    try_catch (jsf_generate l)
                      (fun _ =>
                         generateSimpleSample (generateSampleData depth') l)
                end
            end
      end
  end.

End Generator.

Section Frame.
Context {W : Type} `{RT : Runtime W}.

(** [m] keeps every cell of [h0]: run from a heap that extends [h0], it
    ends in a heap that extends [h0]. *)
Definition keeps {A} (h0 : heap) (m : M (heap * W) A) : Prop :=
  forall st : heap * W, h0 ⊆ st.1 -> h0 ⊆ (m st).2.1.

(** A [jsf.generate] that leaves the cells it is given as they are (it may
    allocate). *)
Definition jsf_preserves : Prop :=
  forall (l : loc) (st : heap * W), st.1 ⊆ (jsf_generate l st).2.1.

End Frame.

(** The value a run-time value stands for in the heap [h], following
    references at most [fuel] deep. *)
Fixpoint readback (fuel : nat) (h : heap) (v : hval) : option JsVal :=
  match v with
  | HVal x => Some x
  | HRef l =>
      match fuel with
      | O => None
      | S fuel' =>
          match h !! l with
          | Some (CArr elems) => JArr <$> mapM (readback fuel' h) elems
          | Some (CObj fields) =>
              JObj <$> mapM (fun kv => pair kv.1 <$> readback fuel' h kv.2)
                            fields
          | None => None
          end
      end
  end.

(** A runtime whose [jsf.generate] always throws and leaves the heap as it
    is; the world is the list of the coming draws. *)
Definition throwingRuntime : Runtime (list float) := {|
  jsf_generate := fun _ st => (Thrown (JStr "jsf failed"), st);
  Math_random := drawFrom;
  Date_toISOString := fun _ => "2025-11-26T10:30:00.000Z"%string
|}.


End Heap.

(** ** Notions used in the statements *)

(** [m] returns a value, whatever the world it starts in. *)
Definition returns {W A} (m : M W A) : Prop :=
  forall w, exists a w', m w = (Normal a, w').

(** The formats [generateString] answers with a literal. *)
Definition recognizedFormat (f : string) : bool :=
  existsb (String.eqb f)
    ["date"; "date-time"; "email"; "uri"; "url"; "uuid"; "ipv4"; "ipv6"]%string.

(** [clamp(x, lo, hi)] of the specification. *)
Definition clamp (x lo hi : Z) : Z := Z.min hi (Z.max lo x).

(** [c] occurs in [s]. *)
Fixpoint occurs (c : ascii) (s : string) : bool :=
  match s with
  | EmptyString => false
  | String c' s' => Ascii.eqb c' c || occurs c s'
  end.

(** [pieces.join(sep)]. *)
Fixpoint join (sep : ascii) (pieces : list string) : string :=
  match pieces with
  | [] => EmptyString
  | [p] => p
  | p :: rest => (p +:+ String sep (join sep rest))%string
  end.

(** ** Sample inputs *)

(** The schema [{ type: "string", minLength: 3, maxLength: 20 }]. *)
Definition usernameSchema : Schema :=
  mkSchema None None None (Some "string"%string) None None None None None
           None None None (Some 3) (Some 20) None None None None None None.

(** The schema [{ type: "number", minimum: 0, maximum: 10,
    exclusiveMinimum: 9.5 }], which the numbers above [9.5] up to [10]
    satisfy. *)
Definition narrowSchema : Schema :=
  mkSchema None None None (Some "number"%string) None None None
           (Some 0%float) (Some 10%float) (Some 9.5%float) None None
           None None None None None None None None.

(** The schema [{ type: "number", minimum: -8.98846567431158e307,
    maximum: 8.98846567431158e307 }], the bounds being [-2^1023] and
    [2^1023]. *)
Definition hugeRangeSchema : Schema :=
  mkSchema None None None (Some "number"%string) None None None
           (Some (-0x1p1023)%float) (Some 0x1p1023%float) None None None
           None None None None None None None None.


(** The schema [{ type: "string" }]. *)
Definition stringSchema : Schema :=
  mkSchema None None None (Some "string"%string) None None None None None
           None None None None None None None None None None None.

(** The schema [{ type: "object", required: ["__proto__"],
    properties: { "__proto__": { type: "string" } } }], as [JSON.parse]
    builds it (an own property named [__proto__]). *)
Definition protoSchema : Schema :=
  mkSchema None None None (Some "object"%string) None None None None None
           None None None None None None None None
           (Some [("__proto__"%string, stringSchema)])
           (Some ["__proto__"%string])
           None.

(** The schema [{ type: "string", minLength: 0, maxLength: 0 }]. *)
Definition emptyStringSchema : Schema :=
  mkSchema None None None (Some "string"%string) None None None None None
           None None None (Some 0) (Some 0) None None None None None None.

(** The schema [{ type: "boolean", enum: [false] }]. *)
Definition falseOnlySchema : Schema :=
  mkSchema None None None (Some "boolean"%string) (Some [JBool false])
           None None None None None None None None None None None None None
           None None.

(** The schema [{ type: "string", enum: ["asc", "desc"] }]. *)
Definition sortOrderSchema : Schema :=
  mkSchema None None None (Some "string"%string)
           (Some [JStr "asc"; JStr "desc"])
           None None None None None None None None None None None None None
           None None.

(** The object schema of the README: [username] and [email] required,
    [age] optional. *)
Definition userSchema : Schema :=
  mkSchema None None None (Some "object"%string) None None None None None
           None None None None None None None None
           (Some [("username"%string, usernameSchema);
                  ("email"%string,
                   mkSchema None None None (Some "string"%string) None
                            (Some "email"%string) None None None None None
                            None None None None None None None None None);
                  ("age"%string,
                   mkSchema None None None (Some "integer"%string) None
                            None None (Some 18%float) None None None
                            None None None None None None None None None)])
           (Some ["username"; "email"]%string)
           None.

(** The node [{ $ref: "", example: 42 }]. *)
Definition emptyRefSchema : Schema :=
  mkSchema (Some (JStr EmptyString)) (Some (JNum 42)) None None None None None None
           None None None None None None None None None None None None.

(** The node [{ $ref: "#/components/schemas/Pet", example: 42,
    type: "string" }]. *)
Definition petRefSchema : Schema :=
  mkSchema (Some (JStr "#/components/schemas/Pet")) (Some (JNum 42)) None
           (Some "string"%string) None None None None
           None None None None None None None None None None None None.

(** The schema [{ type: "array", items: { type: "boolean" }, maxItems: 0 }]. *)
Definition emptyArraySchema : Schema :=
  mkSchema None None None (Some "array"%string) None None None None None
           None None None None None None (Some 0)
           (Some (mkSchema None None None (Some "boolean"%string) None None
                           None None None None None None None None None None
                           None None None None))
           None None None.

(** The schema [{ minLength: 3 }]. *)
Definition typelessSchema : Schema :=
  mkSchema None None None None None None None None None
           None None None (Some 3) None None None None None None None.

(** The document with [servers: [{ url: "" }]]. *)
Definition emptyUrlDocument : Document :=
  mkDocument (Some [mkServer EmptyString]).

(** The document of the README, [servers: [{ url:
    "https://api.example.com/v1" }]]. *)
Definition sampleDocument : Document :=
  mkDocument (Some [mkServer "https://api.example.com/v1"]).

(** The own fields of [{ type: "object", required: ["username"],
    properties: { username: ... } }]. *)
Definition personFields : Schema :=
  mkSchema None None None (Some "object"%string) None None None None None
           None None None None None None None None None
           (Some ["username"%string]) None.

(** The same schema as a tree. *)
Definition personSchema : Schema :=
  mkSchema None None None (Some "object"%string) None None None None None
           None None None None None None None None
           (Some [("username"%string, usernameSchema)])
           (Some ["username"%string]) None.

(** The object that schema is in the heap, with its [properties] object
    at [3] and its [required] array at [4]. *)
Definition personObject : list (string * Heap.hval) :=
  [("type", Heap.HVal (JStr "object"));
   ("required", Heap.HRef 4%positive);
   ("properties", Heap.HRef 3%positive)]%string.

(** The object [{ type: "string", minLength: 3, maxLength: 20 }]. *)
Definition usernameObject : list (string * Heap.hval) :=
  [("type", Heap.HVal (JStr "string"));
   ("minLength", Heap.HVal (JNum 3));
   ("maxLength", Heap.HVal (JNum 20))]%string.

(** A heap holding that object schema at [1], its [username] property
    schema at [2], its [properties] object at [3] and its [required] array
    at [4]. *)
Definition personHeap : Heap.heap :=
  <[1%positive := Heap.CObj personObject]>
    (<[2%positive := Heap.CObj usernameObject]>
       (<[3%positive :=
            Heap.CObj [("username"%string, Heap.HRef 2%positive)]]>
          (<[4%positive := Heap.CArr [Heap.HVal (JStr "username")]]> ∅))).

(** ** Further notions used in the statements *)


(** A runtime whose [Math.random] always draws [r] and whose
    [jsf.generate] always throws. *)
Definition fixedDrawRuntime (r : float) : Runtime unit := {|
  jsf_generate := fun _ w => (Thrown (JStr "jsf failed"), w);
  Math_random := fun w => (r, w);
  Date_toISOString := fun _ => "2025-11-26T10:30:00.000Z"%string
|}.

(** The schema [{ type: "string", minLength: 8, maxLength: 2 }]. *)
Definition contradictoryLengthSchema : Schema :=
  mkSchema None None None (Some "string"%string) None None None None None
           None None None (Some 8) (Some 2) None None None None None None.

(** The schema [{ type: "string", format: "date", maxLength: 4 }]. *)
Definition dateSchema : Schema :=
  mkSchema None None None (Some "string"%string) None (Some "date"%string)
           None None None None None None None (Some 4) None None None None
           None None.

(** The schema [{ type: "array", items: { type: "string", minLength: 3,
    maxLength: 20 }, minItems: 4, maxItems: 1 }]. *)
Definition tagsSchema : Schema :=
  mkSchema None None None (Some "array"%string) None None None None None
           None None None None None (Some 4) (Some 1)
           (Some usernameSchema) None None None.

(** The schema [{ type: "object", properties: { additionalProperty:
    { type: "boolean" } }, required: ["additionalProperty"],
    additionalProperties: true }]. *)
Definition openSchema : Schema :=
  mkSchema None None None (Some "object"%string) None None None None None
           None None None None None None None None
           (Some [("additionalProperty"%string,
                   mkSchema None None None (Some "boolean"%string) None None
                            None None None None None None None None None None
                            None None None None)])
           (Some ["additionalProperty"%string])
           (Some (inl true)).

(** The schema [{ type: "string", example: null, examples: ["a"],
    enum: ["b"] }]. *)
Definition nullExampleSchema : Schema :=
  mkSchema None (Some JNull) (Some (JArr [JStr "a"])) (Some "string"%string)
           (Some [JStr "b"]) None None None None None None None None None
           None None None None None None.

(** ** The operations of a document ([openapi-parser.ts]) *)

(** [ReferenceObject | A]: the code tells the two apart with
    ["$ref" in x]. *)
Inductive Referenced (A : Type) : Type :=
| IsRef (ref : string)
| Inline (a : A).
Arguments IsRef {A} ref.
Arguments Inline {A} a.

Record ParameterObject : Type := mkParameter {
  p_name : string;
  p_in : string;
  p_schema : option Schema
}.

Record MediaTypeObject : Type := mkMediaType {
  mt_schema : option Schema
}.

Record RequestBodyObject : Type := mkRequestBody {
  rb_content : option (list (string * MediaTypeObject))
}.

Record OperationObject : Type := mkOperation {
  op_summary : option string;
  op_description : option string;
  op_operationId : option string;
  op_parameters : option (list (Referenced ParameterObject));
  op_requestBody : option (Referenced RequestBodyObject)
}.

Record PathItemObject : Type := mkPathItem {
  pi_get : option OperationObject;
  pi_post : option OperationObject;
  pi_put : option OperationObject;
  pi_patch : option OperationObject;
  pi_delete : option OperationObject;
  pi_options : option OperationObject;
  pi_head : option OperationObject;
  pi_trace : option OperationObject;
  pi_parameters : option (list (Referenced ParameterObject))
}.

Record InfoObject : Type := mkInfo {
  info_title : string;
  info_version : string;
  info_description : option string
}.

(** The document as the assembler reads it: the servers part
    ([Document]), [info] and [paths] (an entry of [paths] may be null). *)
Record OpenAPIDocument : Type := mkOpenAPI {
  doc_servers : Document;
  doc_info : InfoObject;
  doc_paths : option (list (string * option PathItemObject))
}.

Record OperationInfo : Type := mkOperationInfo {
  oi_path : string;
  oi_method : string;
  oi_operation : OperationObject;
  oi_parameters : option (list ParameterObject);
  oi_requestBody : option RequestBodyObject
}.

(** [c.toUpperCase()] on an ASCII character. *)
Definition upperAscii (c : ascii) : ascii :=
  let n := nat_of_ascii c in
  if (97 <=? n)%nat && (n <=? 122)%nat then ascii_of_nat (n - 32) else c.

(** [s.toUpperCase()] on an ASCII string. *)
Fixpoint toUpperCase (s : string) : string :=
  match s with
  | EmptyString => EmptyString
  | String c s' => String (upperAscii c) (toUpperCase s')
  end.

(** The [methods] array of [getOperations]. *)
Definition methods : list string :=
  ["get"; "post"; "put"; "patch"; "delete"; "options"; "head"; "trace"]%string.

(** [pathItem[method]]. *)
Definition pathItemMethod (pathItem : PathItemObject) (method : string)
  : option OperationObject :=
  if String.eqb method "get" then pi_get pathItem
  else if String.eqb method "post" then pi_post pathItem
  else if String.eqb method "put" then pi_put pathItem
  else if String.eqb method "patch" then pi_patch pathItem
  else if String.eqb method "delete" then pi_delete pathItem
  else if String.eqb method "options" then pi_options pathItem
  else if String.eqb method "head" then pi_head pathItem
  else if String.eqb method "trace" then pi_trace pathItem
  else None.

(** One [for (const param of ...)] loop of [resolveParameters]: references
    are skipped, the others pushed. *)
Definition pushParameters (source : list (Referenced ParameterObject))
    (params : list ParameterObject) : list ParameterObject :=
  fold_left (fun params param =>
               match param with
               | IsRef _ => params
               | Inline p => params ++ [p]
               end) source params.

(** [resolveParameters]. *)
Definition resolveParameters (pathItem : PathItemObject)
    (operation : OperationObject) : list ParameterObject :=
  let params := [] in
  let params :=
    match pi_parameters pathItem with
    | Some source => pushParameters source params
    | None => params
    end in
  match op_parameters operation with
  | Some source => pushParameters source params
  | None => params
  end.

(** [resolveRequestBody]. *)
Definition resolveRequestBody (operation : OperationObject)
  : option RequestBodyObject :=
  match op_requestBody operation with
  | None => None
  | Some (IsRef _) => None
  | Some (Inline body) => Some body
  end.

(** The inner loop of [getOperations] over the methods of one path item. *)
Definition pushOperations (path : string) (pathItem : PathItemObject)
    (operations : list OperationInfo) : list OperationInfo :=
  fold_left (fun operations method =>
               match pathItemMethod pathItem method with
               | Some operation =>
                   operations ++
                   [mkOperationInfo path (toUpperCase method) operation
                      (Some (resolveParameters pathItem operation))
                      (resolveRequestBody operation)]
               | None => operations
               end) methods operations.

(** [getOperations]. *)
Definition getOperations (spec : OpenAPIDocument) : list OperationInfo :=
  match doc_paths spec with
  | None => []
  | Some paths =>
      fold_left (fun operations entry =>
                   match entry.2 with
                   | None => operations
                   | Some pathItem => pushOperations entry.1 pathItem operations
                   end) paths []
  end.

(** The parameters of a list that are not references. *)
Definition inlineOnly {A} (l : list (Referenced A)) : list A :=
  omap (fun x => match x with IsRef _ => None | Inline a => Some a end) l.

(** The operations [getOperations] reports for one path item, method by
    method. *)
Definition operationsOf (path : string) (pathItem : PathItemObject)
  : list OperationInfo :=
  omap (fun method =>
          match pathItemMethod pathItem method with
          | Some operation =>
              Some (mkOperationInfo path (toUpperCase method) operation
                      (Some (resolveParameters pathItem operation))
                      (resolveRequestBody operation))
          | None => None
          end) methods.

(** ** The file-name check of the command ([extension.ts]) *)

(** [s.endsWith(suffix)]: some tail of [s] is [suffix]. *)
Fixpoint endsWith (s suffix : string) : bool :=
  String.eqb s suffix
  || match s with
     | EmptyString => false
     | String _ s' => endsWith s' suffix
     end.

(** The [validateInput] callback of the input box: the message to show, or
    null ([None]) when the name is accepted. *)
Definition validateInput (value : string) : option string :=
  match value with
  | EmptyString => Some "Filename cannot be empty"%string
  | _ =>
      if negb (endsWith value ".http")
      then Some "Filename must end with .http"%string
      else None
  end.

(** ** Loading a document ([validateAndParseOpenAPI])

    [SwaggerParser] and the console are external.  A promise that resolves
    is [Resolved], one that rejects (an exception past an [await]) is
    [Rejected]. *)

(** [s.includes(sub)]: some tail of [s] starts with [sub]. *)
Fixpoint strIncludes (s sub : string) : bool :=
  String.prefix sub s
  || match s with
     | EmptyString => false
     | String _ s' => strIncludes s' sub
     end.

(** What [SwaggerParser] hands back: the version keys, when present, and
    the document. *)
Record ParsedApi : Type := mkParsedApi {
  api_openapi : option string;
  api_swagger : option string;
  api_document : OpenAPIDocument
}.

(** A thrown value: an [Error] with its message, or anything else. *)
Inductive ThrownValue : Type :=
| ErrorObject (message : string)
| OtherThrown (v : JsVal).

Inductive Settled (A : Type) : Type :=
| Resolved (a : A)
| Rejected (e : ThrownValue).
Arguments Resolved {A} a.
Arguments Rejected {A} e.

(** An argument of a console call. *)
Inductive ConsoleArg : Type :=
| LogString (s : string)
| LogStrings (l : list string)
| LogVersions (openapi swagger : option string)
| LogThrown (e : ThrownValue).

Class ParserRuntime (W : Type) : Type := {
  SwaggerParser_validate : string -> W -> Settled ParsedApi * W;
  SwaggerParser_bundle : string -> W -> Settled ParsedApi * W;
  console_log : list ConsoleArg -> W -> W;
  console_error : list ConsoleArg -> W -> W;
  (** [Object.keys(api)]. *)
  Object_keys : ParsedApi -> list string;
  (** [String(v)]. *)
  String_of : JsVal -> string
}.

(** ["openapi" in api && api.openapi.startsWith("3")]. *)
Definition isOpenAPI3 (api : ParsedApi) : bool :=
  match api_openapi api with
  | Some v => String.prefix "3" v
  | None => false
  end.

(** ["swagger" in api && api.swagger === "2.0"]. *)
Definition isSwagger2 (api : ParsedApi) : bool :=
  match api_swagger api with
  | Some v => String.eqb v "2.0"
  | None => false
  end.

(** [validateAndParseOpenAPI] of [src/openapi-parser.ts]. *)
Module OpenapiParser.
Section Parser.
Context {W : Type} `{PR : ParserRuntime W}.

(** The message of the error thrown for a version that is not supported. *)
Definition unsupportedMessage (api : ParsedApi) : string :=
  ("Unsupported API specification version. Expected OpenAPI 3.x or Swagger 2.0, but got: "
   +:+ match api_openapi api with
       | Some v => "OpenAPI " +:+ v
       | None =>
           match api_swagger api with
           | Some v => "Swagger " +:+ v
           | None => "unknown version"
           end
       end)%string.

(** The [try] block. *)
Definition tryBlock (filePath : string) (w : W)
  : Settled (option ParsedApi) * W :=
  let w := console_log [LogString ("Parsing file: " +:+ filePath)] w in
  match SwaggerParser_validate filePath w with
  | (Rejected e, w) => (Rejected e, w)
  | (Resolved api, w) =>
      let w := console_log [LogString "API object keys:";
                            LogStrings (Object_keys api)] w in
      let w := console_log [LogString "Version info:";
                            LogVersions (api_openapi api) (api_swagger api)]
                 w in
      if isOpenAPI3 api then
        let w := console_log
                   [LogString "Detected OpenAPI 3.x specification"] w in
        (Resolved (Some api), w)
      else if isSwagger2 api then
        let w := console_log
                   [LogString
                      "Detected Swagger 2.0 specification, converting to OpenAPI 3"]
                   w in
        match SwaggerParser_bundle filePath w with
        | (Rejected e, w) => (Rejected e, w)
        | (Resolved bundled, w) => (Resolved (Some bundled), w)
        end
      else
        let w := console_error
                   [LogString "Unsupported API specification version"] w in
        (Rejected (ErrorObject (unsupportedMessage api)), w)
  end.

(** [error instanceof Error ? error.message : String(error)]. *)
Definition errorMessageOf (error : ThrownValue) : string :=
  match error with
  | ErrorObject message => message
  | OtherThrown v => String_of v
  end.

(** The [catch] block. *)
Definition catchBlock (filePath : string) (error : ThrownValue) (w : W)
  : Settled (option ParsedApi) * W :=
  let errorMessage := errorMessageOf error in
  let w := console_error [LogString "OpenAPI validation error:";
                          LogString errorMessage] w in
  if strIncludes errorMessage "ENOENT" then
    (Rejected (ErrorObject ("File not found: " +:+ filePath)), w)
  else if strIncludes errorMessage "JSON" || strIncludes errorMessage "YAML"
  then
    (Rejected (ErrorObject ("Invalid JSON/YAML format: " +:+ errorMessage)), w)
  else if strIncludes errorMessage "Unsupported" then (Rejected error, w)
  else
    (Rejected (ErrorObject ("Failed to parse OpenAPI specification: "
                            +:+ errorMessage)), w).

Definition validateAndParseOpenAPI (filePath : string) (w : W)
  : Settled (option ParsedApi) * W :=
  match tryBlock filePath w with
  | (Resolved r, w) => (Resolved r, w)
  | (Rejected error, w) => catchBlock filePath error w
  end.

End Parser.
End OpenapiParser.

(** [validateAndParseOpenAPI] of the other copy of the parser
    ([part_002]). *)
Module Part002.
Section Parser.
Context {W : Type} `{PR : ParserRuntime W}.

Definition tryBlock (filePath : string) (w : W)
  : Settled (option ParsedApi) * W :=
  match SwaggerParser_validate filePath w with
  | (Rejected e, w) => (Rejected e, w)
  | (Resolved api, w) =>
      if isOpenAPI3 api then (Resolved (Some api), w)
      else if isSwagger2 api then
        match SwaggerParser_bundle filePath w with
        | (Rejected e, w) => (Rejected e, w)
        | (Resolved bundled, w) => (Resolved (Some bundled), w)
        end
      else (Resolved None, w)
  end.

Definition validateAndParseOpenAPI (filePath : string) (w : W)
  : Settled (option ParsedApi) * W :=
  match tryBlock filePath w with
  | (Resolved r, w) => (Resolved r, w)
  | (Rejected error, w) =>
      let w := console_error [LogString "OpenAPI validation error:";
                              LogThrown error] w in
      (Resolved None, w)
  end.

End Parser.
End Part002.

(** A parser runtime over a world that holds what [SwaggerParser.validate]
    will answer; the console is not kept. *)
Definition scriptedParser : ParserRuntime (Settled ParsedApi) := {|
  SwaggerParser_validate := fun _ w => (w, w);
  SwaggerParser_bundle := fun _ w => (w, w);
  console_log := fun _ w => w;
  console_error := fun _ w => w;
  Object_keys := fun _ => [];
  String_of := fun _ => "[object Object]"%string
|}.

(** A parsed document with the version key [openapi: "4.0.0"]. *)
Definition futureApi : ParsedApi :=
  mkParsedApi (Some "4.0.0"%string) None
    (mkOpenAPI (mkDocument None) (mkInfo "Future" "1" None) None).

(** ** Partial correctness on the heap *)

(** From a state satisfying [P], a normal end of [m] satisfies [Q]. *)
Definition hoare {W A} (P : Heap.heap * W -> Prop)
    (m : M (Heap.heap * W) A) (Q : A -> Heap.heap * W -> Prop) : Prop :=
  forall st, P st ->
    match m st with
    | (Normal a, st') => Q a st'
    | (Thrown _, _) => True
    end.

(** The heap of [st] holds an object at [r]. *)
Definition objectAt {W} (r : Heap.loc) (st : Heap.heap * W) : Prop :=
  exists fields, st.1 !! r = Some (Heap.CObj fields).

(** The heap of [st] holds an array at [r]. *)
Definition arrayAt {W} (r : Heap.loc) (st : Heap.heap * W) : Prop :=
  exists elems, st.1 !! r = Some (Heap.CArr elems).


(** ** Schemas typed as the callers pass them *)

(** A [$ref] as [OpenAPIV3.ReferenceObject] declares it: absent or a
    string; a falsy one of another type ([null], [0], [false]) is as good
    as absent to the generator. *)
Definition refTyped (ref : option JsVal) : bool :=
  match ref with
  | None | Some (JStr _) => true
  | Some v => negb (Js.truthy v)
  end.

(** Every [$ref] in [s], nested schemas included, is so typed. *)
Fixpoint refsTyped (s : Schema) {struct s} : bool :=
  refTyped (s_ref s)
  && match s_items s with
     | Some items => refsTyped items
     | None => true
     end
  && match s_properties s with
     | Some props =>
         forallb (fun kp => match kp with (_, p) => refsTyped p end) props
     | None => true
     end
  && match s_additionalProperties s with
     | Some (inr ap) => refsTyped ap
     | _ => true
     end.

(** Every [$ref] in the schemas nested in [s] is so typed; the [$ref] of
    [s] itself is left out. *)
Definition nestedRefsTyped (s : Schema) : bool :=
  match s_items s with
  | Some items => refsTyped items
  | None => true
  end
  && match s_properties s with
     | Some props => forallb (fun kp => refsTyped (snd kp)) props
     | None => true
     end
  && match s_additionalProperties s with
     | Some (inr ap) => refsTyped ap
     | _ => true
     end.

(** [rec] returns on every schema nested in [s]. *)
Definition returnsOnNested {W} (rec : Schema -> M W JsVal) (s : Schema)
  : Prop :=
  (forall i, s_items s = Some i -> returns (rec i))
  /\ (forall ps, s_properties s = Some ps ->
        Forall (fun kp => returns (rec (snd kp))) ps)
  /\ (forall a, s_additionalProperties s = Some (inr a) -> returns (rec a)).

(** The number [x] meets the bounds of the schema [s]. *)
Definition meetsBounds (s : Schema) (x : float) : bool :=
  match s_minimum s with Some lo => PrimFloat.leb lo x | None => true end
  && match s_maximum s with Some hi => PrimFloat.leb x hi | None => true end
  && match s_exclusiveMinimum s with
     | Some lo => PrimFloat.ltb lo x
     | None => true
     end
  && match s_exclusiveMaximum s with
     | Some hi => PrimFloat.ltb x hi
     | None => true
     end.

(** The schema [s] with its [multipleOf] taken out. *)
Definition withoutMultipleOf (s : Schema) : Schema :=
  mkSchema (s_ref s) (s_example s) (s_examples s) (s_type s) (s_enum s)
           (s_format s) (s_pattern s) (s_minimum s) (s_maximum s)
           (s_exclusiveMinimum s) (s_exclusiveMaximum s) None
           (s_minLength s) (s_maxLength s) (s_minItems s) (s_maxItems s)
           (s_items s) (s_properties s) (s_required s)
           (s_additionalProperties s).

(** The schema [{ type: "integer" }]. *)
Definition integerSchema : Schema :=
  mkSchema None None None (Some "integer"%string) None None None None None
           None None None None None None None None None None None.

(** The schema [{ type: "number", minimum: 1, maximum: 2, multipleOf: 0 }]. *)
Definition zeroStepSchema : Schema :=
  mkSchema None None None (Some "number"%string) None None None
           (Some 1%float) (Some 2%float) None None (Some 0%float)
           None None None None None None None None.

(** * Properties *)

(** ** Induction over schemas *)

Section SchemaInduction.
Variable P : Schema -> Prop.
Hypothesis step : forall s : Schema,
  (forall i, s_items s = Some i -> P i) ->
  (forall ps, s_properties s = Some ps -> Forall (fun kp => P (snd kp)) ps) ->
  (forall a, s_additionalProperties s = Some (inr a) -> P a) ->
  P s.

Lemma Schema_nested_ind : forall s, P s.
Proof.
  fix IH 1. intros s. apply step.
  - destruct s as [? ? ? ? ? ? ? ? ? ? ? ? ? ? ? ? it ? ? ?]; simpl.
    intros i Hi. destruct it as [i0|]; [|discriminate].
    injection Hi as <-. apply IH.
  - destruct s as [? ? ? ? ? ? ? ? ? ? ? ? ? ? ? ? ? pr ? ?]; simpl.
    intros ps Hps. destruct pr as [ps0|]; [|discriminate].
    injection Hps as <-.
    induction ps0 as [|[k p] ps0 IHps]; constructor; [apply IH | exact IHps].
  - destruct s as [? ? ? ? ? ? ? ? ? ? ? ? ? ? ? ? ? ? ? ap]; simpl.
    intros a Ha. destruct ap as [[b|a0]|]; try discriminate.
    injection Ha as <-. apply IH.
Qed.
End SchemaInduction.

(** ** Typed references *)

Lemma refsTyped_eq (s : Schema) :
  refsTyped s = refTyped (s_ref s) && nestedRefsTyped s.
Proof.
  destruct s as [? ? ? ? ? ? ? ? ? ? ? ? ? ? ? ? it pr ? ap].
  unfold nestedRefsTyped. simpl. rewrite <- !andb_assoc. do 2 f_equal.
  destruct pr as [ps|]; [|reflexivity]. f_equal.
  induction ps as [|[k p] ps IH]; simpl; [reflexivity|]. now rewrite IH.
Qed.

Lemma nestedRefsTyped_inv (s : Schema) :
  nestedRefsTyped s = true ->
  (forall i, s_items s = Some i -> refsTyped i = true)
  /\ (forall ps, s_properties s = Some ps ->
        Forall (fun kp => refsTyped (snd kp) = true) ps)
  /\ (forall a, s_additionalProperties s = Some (inr a) -> refsTyped a = true).
Proof.
  unfold nestedRefsTyped. intros H.
  apply andb_prop in H as [H Hap]. apply andb_prop in H as [Hi Hps].
  repeat split.
  - intros i E. rewrite E in Hi. exact Hi.
  - intros ps E. rewrite E in Hps. apply Forall_forall.
    intros kp Hin. rewrite forallb_forall in Hps. apply Hps.
    apply list_elem_of_In. exact Hin.
  - intros a E. rewrite E in Hap. exact Hap.
Qed.

Lemma refsTyped_nested (s : Schema) :
  refsTyped s = true -> nestedRefsTyped s = true.
Proof. rewrite refsTyped_eq. intros H. apply andb_prop in H. tauto. Qed.

(** A truthy typed reference is a string. *)
Lemma refTyped_truthy (ref : option JsVal) :
  refTyped ref = true -> Js.truthy_val ref = true ->
  exists r, ref = Some (JStr r).
Proof.
  destruct ref as [v|]; [|discriminate].
  destruct v; try (intros _ _; eexists; reflexivity);
    unfold refTyped, Js.truthy_val; intros H1 H2; rewrite H2 in H1;
    discriminate.
Qed.

(** ** Computations that end normally *)

Lemma returns_ret {W A} (a : A) : returns (@ret W A a).
Proof. intros w. exists a, w. reflexivity. Qed.

Lemma returns_bind {W A B} (m : M W A) (k : A -> M W B) :
  returns m -> (forall a, returns (k a)) -> returns (bind m k).
Proof.
  intros Hm Hk w. unfold bind.
  destruct (Hm w) as (a & w1 & ->). apply Hk.
Qed.

Lemma bind_normal {W A B} (m : M W A) (k : A -> M W B) (w w1 : W) (a : A) :
  m w = (Normal a, w1) -> bind m k w = k a w1.
Proof. intros H. unfold bind. rewrite H. reflexivity. Qed.

Lemma returns_try_catch {W A} (m : M W A) (h : JsVal -> M W A) :
  (forall e, returns (h e)) -> returns (try_catch m h).
Proof.
  intros Hh w. unfold try_catch.
  destruct (m w) as [[a|e] w1].
  - exists a, w1. reflexivity.
  - apply Hh.
Qed.

Section Totality.
Context {W : Type} `{RT : Runtime W}.

Lemma returns_pushItems (gen : M W JsVal) (n : nat) :
  returns gen -> forall items, returns (pushItems gen n items).
Proof.
  intros Hgen. induction n as [|n IHn]; intros items; simpl.
  - apply returns_ret.
  - apply returns_bind; [exact Hgen | intros v; apply IHn].
Qed.

Lemma returns_includeProperty (required : list string) (p : string) :
  returns (includeProperty required p).
Proof.
  intros w. unfold includeProperty.
  destruct (Js.includes required p); [eauto|].
  destruct (Math_random w) as [r w']. eauto.
Qed.

Lemma returns_fillProperties (rec : Schema -> M W JsVal)
    (required : list string) (props : list (string * Schema)) :
  Forall (fun kp => returns (rec (snd kp))) props ->
  forall obj, returns (fillProperties rec required props obj).
Proof.
  induction 1 as [|[k p] props Hp _ IH]; intros obj; simpl.
  - apply returns_ret.
  - apply returns_bind; [apply returns_includeProperty|].
    intros [|]; [|apply IH].
    apply returns_bind; [exact Hp | intros v; apply IH].
Qed.

Lemma returns_generateArray (rec : Schema -> M W JsVal) (s : Schema) :
  (forall i, s_items s = Some i -> returns (rec i)) ->
  returns (generateArray rec s).
Proof.
  intros Hi. unfold generateArray.
  destruct (s_items s) as [i|]; [|apply returns_ret].
  apply returns_bind; [|intros l; apply returns_ret].
  apply returns_pushItems, Hi; reflexivity.
Qed.

Lemma returns_generateObject (rec : Schema -> M W JsVal) (s : Schema) :
  (forall ps, s_properties s = Some ps ->
              Forall (fun kp => returns (rec (snd kp))) ps) ->
  (forall a, s_additionalProperties s = Some (inr a) -> returns (rec a)) ->
  returns (generateObject rec s).
Proof.
  intros Hps Hap. unfold generateObject.
  apply returns_bind.
  - destruct (s_properties s) as [ps|]; [|apply returns_ret].
    apply returns_fillProperties, Hps; reflexivity.
  - intros obj. destruct (s_additionalProperties s) as [[[|]|a]|];
      try apply returns_ret.
    apply returns_bind; [apply Hap; reflexivity|].
    intros v; apply returns_ret.
Qed.

Lemma returns_generateSimpleSample (rec : Schema -> M W JsVal) (s : Schema) :
  (forall i, s_items s = Some i -> returns (rec i)) ->
  (forall ps, s_properties s = Some ps ->
              Forall (fun kp => returns (rec (snd kp))) ps) ->
  (forall a, s_additionalProperties s = Some (inr a) -> returns (rec a)) ->
  returns (generateSimpleSample rec s).
Proof.
  intros Hi Hps Hap. unfold generateSimpleSample.
  destruct (Js.truthy_str (s_type s)); [|apply returns_ret].
  repeat match goal with
         | |- returns (if ?b then _ else _) => destruct b
         end;
    try apply returns_ret.
  - intros w. eauto.
  - apply returns_generateArray; assumption.
  - apply returns_generateObject; assumption.
Qed.

(** Unfolding of [generateSampleNode]. *)
Lemma generateSampleNode_eq (s : Schema) :
  generateSampleNode s =
  if Js.truthy_val (s_ref s) then
    fun w => (generateSampleFromRef (default JNull (s_ref s)), w)
  else
    match s_example s with
    | Some ex => ret ex
    | None =>
        match s_examples s with
        | Some (JArr (ex0 :: _)) => ret ex0
        | _ =>
            try_catch (jsf_generate s)
              (fun _ => generateSimpleSample generateSampleNode s)
        end
    end.
Proof. destruct s; reflexivity. Qed.

(** The generator returns on a schema whose references are typed, and the
    simplified generator when those of the nested schemas are. *)
Lemma returns_simple_node (s : Schema) :
  (nestedRefsTyped s = true ->
   returns (generateSimpleSample generateSampleNode s))
  /\ (refsTyped s = true -> returns (generateSampleNode s)).
Proof.
  induction s as [s Hi Hps Hap] using Schema_nested_ind.
  assert (Hsimple : nestedRefsTyped s = true ->
                    returns (generateSimpleSample generateSampleNode s)).
  { intros Hn. destruct (nestedRefsTyped_inv s Hn) as (Ti & Tps & Tap).
    apply returns_generateSimpleSample.
    - intros i E. apply (Hi i E), (Ti i E).
    - intros ps E. specialize (Hps ps E). specialize (Tps ps E).
      clear E. induction Hps as [|kp ps [_ H] _ IH]; constructor.
      + apply H. inversion Tps; assumption.
      + apply IH. inversion Tps; assumption.
    - intros a E. apply (Hap a E), (Tap a E). }
  split; [exact Hsimple|].
  rewrite refsTyped_eq. intros H. apply andb_prop in H as [Href Hn].
  rewrite generateSampleNode_eq.
  destruct (Js.truthy_val (s_ref s)) eqn:Et.
  { destruct (refTyped_truthy _ Href Et) as [r ->]. intros w. simpl. eauto. }
  destruct (s_example s); [apply returns_ret|].
  destruct (s_examples s) as [[| | | |[|]|]|];
    try apply returns_ret;
    apply returns_try_catch; intros _; exact (Hsimple Hn).
Qed.

Lemma returns_generateSampleNode (s : Schema) :
  refsTyped s = true -> returns (generateSampleNode s).
Proof. apply returns_simple_node. Qed.

(** Past the short-circuits, a throwing [jsf.generate] hands over to the
    simplified generator. *)
Lemma generateSampleNode_fallback (s : Schema) (w w1 : W) (e : JsVal) :
  Js.truthy_val (s_ref s) = false ->
  s_example s = None ->
  (forall ex l, s_examples s <> Some (JArr (ex :: l))) ->
  jsf_generate s w = (Thrown e, w1) ->
  generateSampleNode s w = generateSimpleSample generateSampleNode s w1.
Proof.
  intros Href Hex Hexs Hjsf.
  rewrite generateSampleNode_eq, Href, Hex.
  destruct (s_examples s) as [[| | | |[|ex l]|]|];
    try (unfold try_catch; rewrite Hjsf; reflexivity).
  exfalso. apply (Hexs ex l). reflexivity.
Qed.

(** Past the short-circuits, a value returned by [jsf.generate] is the
    result. *)
Lemma generateSampleNode_primary (s : Schema) (w w1 : W) (v : JsVal) :
  Js.truthy_val (s_ref s) = false ->
  s_example s = None ->
  (forall ex l, s_examples s <> Some (JArr (ex :: l))) ->
  jsf_generate s w = (Normal v, w1) ->
  generateSampleNode s w = (Normal v, w1).
Proof.
  intros Href Hex Hexs Hjsf.
  rewrite generateSampleNode_eq, Href, Hex.
  destruct (s_examples s) as [[| | | |[|ex l]|]|];
    try (unfold try_catch; rewrite Hjsf; reflexivity).
  exfalso. apply (Hexs ex l). reflexivity.
Qed.

End Totality.

Lemma returnsOnNested_generateSampleNode {W} `{RT : Runtime W} (s : Schema) :
  nestedRefsTyped s = true -> returnsOnNested generateSampleNode s.
Proof.
  intros Hn. destruct (nestedRefsTyped_inv s Hn) as (Ti & Tps & Tap).
  repeat split.
  - intros i E. apply returns_generateSampleNode, (Ti i E).
  - intros ps E. eapply Forall_impl; [apply (Tps ps E)|].
    intros kp H. apply returns_generateSampleNode, H.
  - intros a E. apply returns_generateSampleNode, (Tap a E).
Qed.

(** ** C1: the generator never raises *)




(** ** C2: numbers and their bounds *)

(** C2 (the code at its failing input).  The schema [{ type: "number",
    minimum: 0, maximum: 10, exclusiveMinimum: 9.5 }] has [lo = 0 <= hi =
    10] and is met by [10]; the midpoint [5] is not above the exclusive
    bound, the code answers [exclusiveMinimum + 1 = 10.5] and does not look
    at the maximum again.  And for the bounds [-2^1023] and [2^1023] the
    difference [maximum - minimum] overflows: the result is [Infinity]. *)
Theorem generateNumber_exceeds_maximum :
  generateNumber narrowSchema = JNum 10.5
  /\ meetsBounds narrowSchema 10 = true
  /\ meetsBounds narrowSchema 10.5 = false
  /\ PrimFloat.leb 10.5 10 = false
  /\ generateSampleData (RT := throwingRuntime) (Some narrowSchema) []
     = (Normal (JNum 10.5), [])
  /\ generateNumber hugeRangeSchema = JNum infinity
  /\ meetsBounds hugeRangeSchema 0 = true
  /\ meetsBounds hugeRangeSchema infinity = false.
Proof. repeat split. Qed.

(** ** C3: length of a generated string *)

Lemma length_substring_prefix (s : string) (n : nat) :
  (n <= String.length s)%nat -> String.length (String.substring 0 n s) = n.
Proof.
  revert n. induction s as [|c s IH]; intros [|n] H; simpl in *;
    try reflexivity; try lia.
  rewrite IH; [reflexivity | lia].
Qed.

Lemma length_string_app (s1 s2 : string) :
  String.length (s1 +:+ s2) = (String.length s1 + String.length s2)%nat.
Proof. induction s1 as [|c s1 IH]; simpl; [|rewrite IH]; reflexivity. Qed.

Lemma length_fill (c : ascii) (cur : string) (n : nat) :
  String.length (Js.fill (String c EmptyString) cur n) = n.
Proof.
  revert cur. induction n as [|n IH]; intros cur; simpl; [reflexivity|].
  destruct cur; simpl; rewrite IH; reflexivity.
Qed.

Lemma length_padEnd_substring (s : string) (c : ascii) (n : Z) :
  0 <= n ->
  String.length (Js.substring0 (Js.padEnd s n (String c EmptyString)) n)
  = Z.to_nat n.
Proof.
  intros Hn. unfold Js.substring0, Js.padEnd.
  destruct (n <=? Z.of_nat (String.length s)) eqn:B.
  - apply Z.leb_le in B. apply length_substring_prefix. lia.
  - apply Z.leb_gt in B. apply length_substring_prefix.
    rewrite length_string_app, length_fill. lia.
Qed.

(** With a [maxLength] other than zero the length is the clamp of the
    specification. *)
Lemma generateString_length (now : string) (s : Schema) (a b : Z) :
  s_minLength s = Some a -> s_maxLength s = Some b ->
  0 <= a <= b -> b <> 0 ->
  (forall e l, s_enum s <> Some (e :: l)) ->
  (forall f, s_format s = Some f -> recognizedFormat f = false) ->
  Js.truthy_str (s_pattern s) = false ->
  exists str, generateString now s = JStr str
              /\ Z.of_nat (String.length str) = clamp 5 a b.
Proof.
  intros Hmin Hmax Hab Hb Henum Hfmt Hpat.
  unfold generateString.
  destruct (s_enum s) as [[|e l]|] eqn:E;
    try (exfalso; apply (Henum e l); reflexivity).
  all: rewrite Hpat, Hmin, Hmax.
  all: assert (Hlen : Z.min (Js.or_default (Some b) 10)
                        (Z.max (Js.or_default (Some a) 3) 5) = clamp 5 a b)
    by (unfold Js.or_default, clamp;
        destruct (Z.eqb_spec b 0); [lia|];
        destruct (Z.eqb_spec a 0); lia).
  all: rewrite Hlen.
  all: assert (Hres : exists str,
          JStr (Js.substring0 (Js.padEnd "example" (clamp 5 a b) "x")
                              (clamp 5 a b)) = JStr str
          /\ Z.of_nat (String.length str) = clamp 5 a b)
    by (eexists; split; [reflexivity|];
        rewrite length_padEnd_substring; unfold clamp; lia).
  all: destruct (s_format s) as [f|] eqn:Ef; [|exact Hres].
  all: specialize (Hfmt f eq_refl); unfold recognizedFormat in Hfmt;
       simpl in Hfmt; repeat (apply orb_false_elim in Hfmt;
                              destruct Hfmt as [?B Hfmt]).
  all: repeat match goal with H : String.eqb _ _ = false |- _ =>
                rewrite H; clear H end; simpl; exact Hres.
Qed.

(** C3 (the code at its failing input).  With [minLength = 0 <= maxLength =
    0] the claimed length is [clamp(5, 0, 0) = 0], but [maxLength || 10]
    takes the zero for an absent bound and [generateString] returns the
    five characters ["examp"]. *)
Theorem generateString_zero_maxLength (now : string) :
  generateString now emptyStringSchema = JStr "examp"
  /\ String.length "examp" = 5%nat
  /\ clamp 5 0 0 = 0
  /\ generateSampleData (RT := throwingRuntime) (Some emptyStringSchema) []
     = (Normal (JStr "examp"), []).
Proof. repeat split. Qed.

(** ** C4: enum *)

(** C4, as stated, fails: only the string and number rules look at the
    enum.  For the boolean schema whose enum is [[false]] the simplified
    generator answers [true]. *)
Lemma generateSampleData_enum_ignored_for_boolean :
  s_enum falseOnlySchema = Some [JBool false]
  /\ s_ref falseOnlySchema = None
  /\ s_example falseOnlySchema = None
  /\ s_examples falseOnlySchema = None
  /\ generateSampleData (RT := throwingRuntime) (Some falseOnlySchema) []
     = (Normal (JBool true), [])
  /\ JBool true <> JBool false.
Proof. repeat split. discriminate. Qed.

(** C4 (amended).  For every schema with a non-empty enum list,
    [generateString] and [generateNumber] return exactly its first element;
    and [generateSampleData] returns it when the schema has no $ref, example
    or examples, its type is [string], [number] or [integer], and the primary
    attempt [jsf.generate] throws. *)
Theorem enum_first_element (W : Type) (RT : Runtime W) (s : Schema)
    (e0 : JsVal) (l : list JsVal) :
  s_enum s = Some (e0 :: l) ->
  (forall now, generateString now s = e0)
  /\ generateNumber s = e0
  /\ (forall (w w1 : W) (e : JsVal) (t : string),
        Js.truthy_val (s_ref s) = false ->
        s_example s = None ->
        (forall ex exs, s_examples s <> Some (JArr (ex :: exs))) ->
        s_type s = Some t ->
        In t ["string"; "number"; "integer"]%string ->
        jsf_generate s w = (Thrown e, w1) ->
        generateSampleData (Some s) w = (Normal e0, w1)).
Proof.
  intros Henum.
  assert (Hstr : forall now, generateString now s = e0)
    by (intros now; unfold generateString; rewrite Henum; reflexivity).
  assert (Hnum : generateNumber s = e0)
    by (unfold generateNumber; rewrite Henum; reflexivity).
  repeat split; try assumption.
  intros w w1 e t Href Hex Hexs Ht Hin Hjsf. simpl.
  rewrite (generateSampleNode_fallback s w w1 e) by assumption.
  unfold generateSimpleSample. rewrite Ht.
  simpl in Hin. destruct Hin as [<-|[<-|[<-|[]]]]; simpl.
  - rewrite Hstr. reflexivity.
  - unfold ret. rewrite Hnum. reflexivity.
  - unfold ret. rewrite Hnum. reflexivity.
Qed.

Lemma enum_first_element_witness :
  generateSampleData (RT := throwingRuntime) (Some sortOrderSchema) []
  = (Normal (JStr "asc"), []).
Proof.
  destruct (enum_first_element (list float) throwingRuntime sortOrderSchema
              (JStr "asc") [JStr "desc"] eq_refl) as (_ & _ & H).
  apply (H [] [] (JStr "jsf failed") "string"%string).
  - reflexivity.
  - reflexivity.
  - intros ex exs; discriminate.
  - reflexivity.
  - simpl; left; reflexivity.
  - reflexivity.
Defined.

(** ** C5: required properties *)

Lemma includes_In (arr : list string) (x : string) :
  In x arr -> Js.includes arr x = true.
Proof.
  intros H. unfold Js.includes. apply existsb_exists.
  exists x. split; [exact H | apply String.eqb_refl].
Qed.


Section SetProperties.
Context {V : Type}.

Lemma setOwn_key_present (k : string) (v : V) (o : list (string * V)) :
  In k (map fst (Js.setOwn k v o)).
Proof.
  induction o as [|[k' v'] o IH]; simpl; [left; reflexivity|].
  destruct (String.eqb_spec k' k) as [->|Hne]; simpl; [left; reflexivity|].
  right; exact IH.
Qed.

Lemma setOwn_keeps_keys (k k0 : string) (v : V) (o : list (string * V)) :
  In k0 (map fst o) -> In k0 (map fst (Js.setOwn k v o)).
Proof.
  induction o as [|[k' v'] o IH]; simpl; [intros []|].
  intros [<-|H]; destruct (String.eqb k' k); simpl; auto.
Qed.

(** Any key but ["__proto__"] is an own key after it was set. *)
Lemma set_key_present (k : string) (v : V) (o : list (string * V)) :
  k <> "__proto__"%string -> In k (map fst (Js.set k v o)).
Proof.
  intros Hk. unfold Js.set.
  destruct (String.eqb_spec k "__proto__"); [contradiction|].
  apply setOwn_key_present.
Qed.

Lemma set_keeps_keys (k k0 : string) (v : V) (o : list (string * V)) :
  In k0 (map fst o) -> In k0 (map fst (Js.set k v o)).
Proof.
  intros H. unfold Js.set. destruct (String.eqb k "__proto__"); [exact H|].
  apply setOwn_keeps_keys, H.
Qed.

(** Setting ["__proto__"] adds no own key. *)
Lemma set_proto (v : V) (o : list (string * V)) : Js.set "__proto__" v o = o.
Proof. reflexivity. Qed.

End SetProperties.

Section RequiredProperties.
Context {W : Type} `{RT : Runtime W}.
Variable rec : Schema -> M W JsVal.

(** The loop over the declared properties returns an object that keeps
    the keys it started with and holds every required declared name other
    than ["__proto__"]. *)
Lemma fillProperties_required (required : list string)
    (props : list (string * Schema)) (obj : list (string * JsVal)) (w : W) :
  Forall (fun kp => returns (rec (snd kp))) props ->
  exists obj' w',
    fillProperties rec required props obj w = (Normal obj', w')
    /\ (forall k, In k (map fst obj) -> In k (map fst obj'))
    /\ (forall k, In k (map fst props) -> In k required ->
                  k <> "__proto__"%string -> In k (map fst obj')).
Proof.
  intros Hret. revert obj w.
  induction Hret as [|[k p] props Hp _ IH]; intros obj w; simpl.
  - exists obj, w. repeat split; [auto | intros k []].
  - simpl in Hp. unfold bind at 1, includeProperty.
    destruct (Js.includes required k) eqn:Hinc.
    + unfold bind at 1.
      destruct (Hp w) as (v & w1 & ->).
      destruct (IH (Js.set k v obj) w1) as (obj' & w' & -> & Hkeep & Hreq).
      exists obj', w'. repeat split.
      * intros k0 Hk0. apply Hkeep, set_keeps_keys, Hk0.
      * intros k0 [<-|Hk0] Hr Hne; [apply Hkeep, set_key_present, Hne | auto].
    + assert (Hk : ~ In k required).
      { intros Hin. rewrite (includes_In _ _ Hin) in Hinc. discriminate. }
      destruct (Math_random w) as [r w0].
      destruct (PrimFloat.ltb 0.3 r).
      * unfold bind at 1.
        destruct (Hp w0) as (v & w1 & ->).
        destruct (IH (Js.set k v obj) w1) as (obj' & w' & -> & Hkeep & Hreq).
        exists obj', w'. repeat split.
        -- intros k0 Hk0. apply Hkeep, set_keeps_keys, Hk0.
        -- intros k0 [<-|Hk0] Hr Hne; [contradiction | auto].
      * destruct (IH obj w0) as (obj' & w' & -> & Hkeep & Hreq).
        exists obj', w'. repeat split; [exact Hkeep|].
        intros k0 [<-|Hk0] Hr Hne; [contradiction | auto].
Qed.

(** Every declared required property other than ["__proto__"] is a key of
    the generated object, whatever the draws. *)
Lemma generateObject_required (s : Schema) (ps : list (string * Schema))
    (req : list string) (name : string) (w : W) :
  returnsOnNested rec s ->
  s_properties s = Some ps -> s_required s = Some req ->
  In name (map fst ps) -> In name req ->
  name <> "__proto__"%string ->
  exists fields w',
    generateObject rec s w = (Normal (JObj fields), w')
    /\ In name (map fst fields).
Proof.
  intros (_ & Rps & Rap) Hps Hreq Hdecl Hin Hne.
  unfold generateObject. rewrite Hps, Hreq. simpl.
  unfold bind at 1.
  destruct (fillProperties_required req ps [] w (Rps ps Hps))
    as (obj & w1 & -> & _ & Hobj).
  specialize (Hobj name Hdecl Hin Hne).
  destruct (s_additionalProperties s) as [[[|]|a]|] eqn:Eap.
  - eexists _, w1. split; [reflexivity | apply set_keeps_keys, Hobj].
  - exists obj, w1. split; [reflexivity | exact Hobj].
  - unfold bind. destruct (Rap a eq_refl w1) as (v & w2 & ->).
    eexists _, w2. split; [reflexivity | apply set_keeps_keys, Hobj].
  - exists obj, w1. split; [reflexivity | exact Hobj].
Qed.

End RequiredProperties.

(** C5 (the code at its failing input).  The object schema that declares
    the property ["__proto__"] and lists it in [required]: for every runtime
    and every world (so every outcome of the random draws and of
    [jsf.generate]) the loop takes the property, since it is required, and
    runs [obj["__proto__"] = ...], which creates no own property: the
    generated object has no key at all. *)
Theorem generateObject_required_proto_absent (W : Type) (RT : Runtime W)
    (w : W) :
  (exists ps req,
     s_properties protoSchema = Some ps /\ s_required protoSchema = Some req
     /\ In "__proto__"%string (map fst ps) /\ In "__proto__"%string req)
  /\ (exists w',
        generateObject generateSampleNode protoSchema w
        = (Normal (JObj []), w'))
  /\ generateSampleData (RT := throwingRuntime) (Some protoSchema) []
     = (Normal (JObj []), []).
Proof.
  split; [|split].
  - eexists _, _. repeat split; simpl; auto.
  - destruct (returns_generateSampleNode stringSchema eq_refl w)
      as (v & w1 & Hv).
    exists w1.
    unfold generateObject.
    erewrite bind_normal; [reflexivity|].
    unfold protoSchema.
    cbn [s_properties s_required default from_option id fillProperties].
    erewrite bind_normal; [|reflexivity]. cbv iota.
    erewrite bind_normal; [|exact Hv]. reflexivity.
  - reflexivity.
Qed.

(** X24.  Every other required property is there: for every runtime and
    every world (so every outcome of the random draws), a declared property
    listed in [required] and not named ["__proto__"] is a key of the object
    [generateObject] returns (the nested schemas having strings for their
    [$ref]s where set). *)
Theorem generateObject_required_present (W : Type) (RT : Runtime W)
    (s : Schema) (ps : list (string * Schema)) (req : list string)
    (name : string) (w : W) :
  nestedRefsTyped s = true ->
  s_properties s = Some ps ->
  s_required s = Some req ->
  In name (map fst ps) ->
  In name req ->
  name <> "__proto__"%string ->
  exists fields w',
    generateObject generateSampleNode s w = (Normal (JObj fields), w')
    /\ In name (map fst fields).
Proof.
  intros Hnested. apply generateObject_required.
  apply returnsOnNested_generateSampleNode, Hnested.
Qed.

Lemma generateObject_required_present_witness :
  exists fields w',
    generateObject (RT := throwingRuntime)
                   (generateSampleNode (RT := throwingRuntime)) userSchema
                   [0%float]
    = (Normal (JObj fields), w')
    /\ In "email"%string (map fst fields).
Proof.
  apply (generateObject_required_present (list float) throwingRuntime
           userSchema _ ["username"; "email"]%string "email"%string
           [0%float] eq_refl eq_refl eq_refl).
  - simpl; right; left; reflexivity.
  - simpl; right; left; reflexivity.
  - discriminate.
Defined.

(** With the draw [0], which is not above [0.3], the optional [age] of the
    README's schema is left out and the two required properties are
    there. *)
Example userSchema_low_draw :
  generateObject (RT := throwingRuntime)
                 (generateSampleNode (RT := throwingRuntime)) userSchema
                 [0%float]
  = (Normal (JObj [("username"%string, JStr "examp");
                   ("email"%string, JStr "user@example.com")]), []).
Proof. reflexivity. Qed.

(** ** C6: references *)

Lemma string_app_assoc (a b c : string) :
  (a +:+ (b +:+ c) = (a +:+ b) +:+ c)%string.
Proof.
  induction a as [|x a IH]; [reflexivity|].
  change (String x (a +:+ (b +:+ c)) = String x ((a +:+ b) +:+ c))%string.
  rewrite IH. reflexivity.
Qed.

Lemma split_nonempty (sep : ascii) (s : string) : Js.split sep s <> [].
Proof.
  destruct s as [|c s]; simpl; [discriminate|].
  destruct (Ascii.eqb c sep); [discriminate|].
  destruct (Js.split sep s); discriminate.
Qed.

Lemma join_split (sep : ascii) (s : string) : join sep (Js.split sep s) = s.
Proof.
  induction s as [|c s IH]; simpl; [reflexivity|].
  destruct (Ascii.eqb_spec c sep) as [->|Hne].
  - pose proof (split_nonempty sep s) as Hn.
    destruct (Js.split sep s) as [|p ps]; [contradiction|].
    change (String sep (join sep (p :: ps)) = String sep s).
    rewrite IH. reflexivity.
  - destruct (Js.split sep s) as [|p ps]; simpl in *; [subst; reflexivity|].
    destruct ps; simpl in *; rewrite <- IH; reflexivity.
Qed.

Lemma split_pieces_clean (sep : ascii) (s : string) :
  Forall (fun p => occurs sep p = false) (Js.split sep s).
Proof.
  induction s as [|c s IH]; simpl; [repeat constructor|].
  destruct (Ascii.eqb c sep) eqn:B; [constructor; [reflexivity | exact IH]|].
  destruct (Js.split sep s) as [|p ps]; [repeat constructor; simpl; rewrite B; reflexivity|].
  inversion IH as [|? ? Hp Hps]; subst. constructor; [|exact Hps].
  simpl. rewrite B, Hp. reflexivity.
Qed.

(** A joined non-empty list of pieces ends with its last piece, after a
    separator unless there is only one piece. *)
Lemma join_last (sep : ascii) (pieces : list string) :
  pieces <> [] ->
  join sep pieces = List.last pieces EmptyString
  \/ exists prefix,
       join sep pieces
       = (prefix +:+ String sep (List.last pieces EmptyString))%string.
Proof.
  induction pieces as [|p rest IH]; [contradiction|]. intros _.
  destruct rest as [|q rest]; [left; reflexivity|].
  right.
  change (List.last (p :: q :: rest) EmptyString)
    with (List.last (q :: rest) EmptyString).
  change (join sep (p :: q :: rest))
    with (p +:+ String sep (join sep (q :: rest)))%string.
  destruct IH as [E|[prefix E]]; [discriminate| |]; rewrite E.
  - exists p. reflexivity.
  - exists (p +:+ String sep prefix)%string.
    apply (string_app_assoc p (String sep prefix)).
Qed.

(** What [generateSampleFromRef] names the placeholder: the part of the
    reference after its last ["/"] (all of it when it has none). *)
Lemma last_segment_spec (ref : string) :
  let name := List.last (Js.split "/" ref) EmptyString in
  occurs "/" name = false
  /\ (ref = name \/ exists prefix, ref = (prefix +:+ String "/" name)%string).
Proof.
  simpl. split.
  - pose proof (split_pieces_clean "/" ref) as Hall.
    pose proof (split_nonempty "/" ref) as Hne.
    induction Hall as [|p ps Hp Hps IH]; [contradiction|].
    destruct ps as [|q ps]; [exact Hp|]. apply IH. discriminate.
  - pose proof (join_last "/" _ (split_nonempty "/" ref)) as H.
    rewrite join_split in H. exact H.
Qed.

(** C6, as stated, fails: the test is [if (schema.$ref)], so a $ref that is
    present but empty does not short-circuit and the example is returned. *)
Lemma generateSampleData_empty_ref_falls_through :
  s_ref emptyRefSchema = Some (JStr EmptyString)
  /\ generateSampleData (RT := throwingRuntime) (Some emptyRefSchema) []
     = (Normal (JNum 42), [])
  /\ JNum 42 <> JObj [("id"%string, JNum 1); ("name"%string, JStr "")].
Proof. repeat split. discriminate. Qed.

(** C6 (amended).  For every schema node whose $ref is a non-empty string,
    whatever its other fields, the runtime and the world,
    [generateSampleData] returns the object [{ id: 1, name }] and leaves the
    world as it was, where [name] has no ["/"] and the reference is [name]
    itself or ends in ["/"] followed by [name]. *)
Theorem ref_placeholder (W : Type) (RT : Runtime W) (s : Schema)
    (ref : string) (w : W) :
  s_ref s = Some (JStr ref) ->
  ref <> EmptyString ->
  exists name : string,
    generateSampleData (Some s) w
    = (Normal (JObj [("id"%string, JNum 1); ("name"%string, JStr name)]), w)
    /\ occurs "/" name = false
    /\ (ref = name
        \/ exists prefix, ref = (prefix +:+ String "/" name)%string).
Proof.
  intros Href Hne.
  exists (List.last (Js.split "/" ref) EmptyString). split.
  - simpl. rewrite generateSampleNode_eq, Href.
    destruct ref as [|c ref]; [contradiction|]. reflexivity.
  - apply last_segment_spec.
Qed.

Lemma ref_placeholder_witness :
  exists name : string,
    generateSampleData (RT := throwingRuntime) (Some petRefSchema) []
    = (Normal (JObj [("id"%string, JNum 1); ("name"%string, JStr name)]), [])
    /\ occurs "/" name = false
    /\ ("#/components/schemas/Pet"%string = name
        \/ exists prefix,
             "#/components/schemas/Pet"%string
             = (prefix +:+ String "/" name)%string).
Proof.
  apply (ref_placeholder (list float) throwingRuntime petRefSchema
           "#/components/schemas/Pet"%string []).
  - reflexivity.
  - discriminate.
Defined.

Example petRefSchema_name :
  generateSampleData (RT := throwingRuntime) (Some petRefSchema) []
  = (Normal (JObj [("id"%string, JNum 1); ("name"%string, JStr "Pet")]), []).
Proof. reflexivity. Qed.

(** ** C7: arrays *)

Section Arrays.
Context {W : Type} `{RT : Runtime W}.

(** [n] pushes add [n] values, each returned by a run of [gen]. *)
Lemma pushItems_spec (gen : M W JsVal) (n : nat) :
  returns gen ->
  forall (acc : list JsVal) (w : W),
  exists l w',
    pushItems gen n acc w = (Normal (acc ++ l), w')
    /\ length l = n
    /\ Forall (fun v => exists w0 w1, gen w0 = (Normal v, w1)) l.
Proof.
  intros Hgen. induction n as [|n IH]; intros acc w; simpl.
  - exists [], w. rewrite app_nil_r. repeat split. constructor.
  - unfold bind. destruct (Hgen w) as (v & w1 & Hv). rewrite Hv.
    destruct (IH (acc ++ [v]) w1) as (l & w' & -> & Hlen & Hall).
    exists (v :: l), w'. rewrite <- app_assoc. repeat split.
    + simpl. rewrite Hlen. reflexivity.
    + constructor; [exists w, w1; exact Hv | exact Hall].
Qed.

(** Without items the array is empty; with items and a [maxItems] other
    than zero it has the clamped number of elements, each returned by a
    recursive call on the items schema. *)
Lemma generateArray_spec (rec : Schema -> M W JsVal) (s : Schema) (w : W) :
  (forall i, s_items s = Some i -> returns (rec i)) ->
  match s_items s with
  | None => generateArray rec s w = (Normal (JArr []), w)
  | Some items =>
      s_maxItems s <> Some 0 ->
      exists l w',
        generateArray rec s w = (Normal (JArr l), w')
        /\ length l
           = Z.to_nat (clamp 2 (default 1 (s_minItems s))
                               (default 3 (s_maxItems s)))
        /\ Forall (fun v => exists w0 w1, rec items w0 = (Normal v, w1)) l
  end.
Proof.
  intros Hrec. unfold generateArray.
  destruct (s_items s) as [items|]; [|reflexivity].
  intros Hmax. unfold bind.
  destruct (pushItems_spec (rec items) (Z.to_nat (itemCount s))
              (Hrec items eq_refl) [] w) as (l & w' & -> & Hlen & Hall).
  exists l, w'. repeat split; [|exact Hall].
  rewrite Hlen. f_equal. unfold itemCount, clamp, Js.or_default.
  destruct (s_maxItems s) as [b|], (s_minItems s) as [a|]; simpl;
    repeat match goal with
           | |- context [?x =? 0] => destruct (Z.eqb_spec x 0)
           end; subst; try lia; congruence.
Qed.

End Arrays.

(** C7 (the code at its failing input).  With [maxItems = 0] the claimed
    count is [clamp(2, 1, 0) = 0], but [maxItems || 3] takes the zero for an
    absent bound and [generateArray] returns two elements. *)
Theorem generateArray_zero_maxItems :
  generateArray (generateSampleNode (RT := throwingRuntime))
                emptyArraySchema []
  = (Normal (JArr [JBool true; JBool true]), [])
  /\ clamp 2 (default 1 (s_minItems emptyArraySchema))
             (default 3 (s_maxItems emptyArraySchema)) = 0
  /\ generateSampleData (RT := throwingRuntime) (Some emptyArraySchema) []
     = (Normal (JArr [JBool true; JBool true]), []).
Proof. repeat split. Qed.

(** ** C8: schemas without a type *)

(** C8, as stated, fails: past the short-circuits the value of
    [jsf.generate] is returned as it is, so for the schema [{}] a runtime
    whose [jsf.generate] returns the empty object makes [generateSampleData]
    return that object, not null. *)
Lemma generateSampleData_typeless_returns_jsf_value :
  s_type emptySchema = None
  /\ s_enum emptySchema = None
  /\ s_ref emptySchema = None
  /\ s_example emptySchema = None
  /\ s_examples emptySchema = None
  /\ generateSampleData (RT := constantRuntime (JObj [])) (Some emptySchema) []
     = (Normal (JObj []), [])
  /\ JObj [] <> JNull.
Proof. repeat split. discriminate. Qed.

(** C8 (amended).  For every non-null schema with no type and no $ref,
    example or examples, the simplified generator returns null; and
    [generateSampleData] does not throw: it returns the value of
    [jsf.generate] when that returns, and null when that throws. *)
Theorem typeless_schema (W : Type) (RT : Runtime W) (s : Schema) (w : W) :
  s_type s = None ->
  s_ref s = None ->
  s_example s = None ->
  s_examples s = None ->
  (forall w0, generateSimpleSample generateSampleNode s w0 = (Normal JNull, w0))
  /\ generateSampleData (Some s) w
     = match jsf_generate s w with
       | (Normal v, w1) => (Normal v, w1)
       | (Thrown _, w1) => (Normal JNull, w1)
       end.
Proof.
  intros Ht Href Hex Hexs.
  assert (Hsimple : forall w0,
             generateSimpleSample generateSampleNode s w0 = (Normal JNull, w0))
    by (intros w0; unfold generateSimpleSample; rewrite Ht; reflexivity).
  split; [exact Hsimple|].
  simpl. rewrite generateSampleNode_eq, Href, Hex, Hexs. simpl.
  unfold try_catch. destruct (jsf_generate s w) as [[v|e] w1];
    [reflexivity | apply Hsimple].
Qed.

Lemma typeless_schema_witness :
  generateSampleData (RT := throwingRuntime) (Some typelessSchema) []
  = (Normal JNull, []).
Proof.
  destruct (typeless_schema (list float) throwingRuntime typelessSchema []
              eq_refl eq_refl eq_refl eq_refl) as [_ H].
  rewrite H. reflexivity.
Defined.

(** ** C10: the base URL *)

(** C10, as stated, fails in its last part: the url of the first server is
    returned as it is, also when it is the empty string. *)
Lemma getBaseUrl_empty_server_url :
  servers emptyUrlDocument = Some [mkServer EmptyString]
  /\ getBaseUrl emptyUrlDocument = EmptyString.
Proof. split; reflexivity. Qed.

(** C10 (amended).  [getBaseUrl] returns the url of the first entry of
    [servers] when that array exists and is not empty, and
    ["http://localhost"] otherwise; it returns the empty string only when the
    url of that first entry is empty. *)
Theorem getBaseUrl_spec (spec : Document) :
  (forall server0 rest,
      servers spec = Some (server0 :: rest) -> getBaseUrl spec = url server0)
  /\ (servers spec = None \/ servers spec = Some [] ->
      getBaseUrl spec = "http://localhost"%string)
  /\ (getBaseUrl spec = EmptyString ->
      exists server0 rest,
        servers spec = Some (server0 :: rest) /\ url server0 = EmptyString).
Proof.
  unfold getBaseUrl. repeat split.
  - intros server0 rest ->. reflexivity.
  - intros [-> | ->]; reflexivity.
  - destruct (servers spec) as [[|server0 rest]|]; try discriminate.
    intros H. exists server0, rest. split; [reflexivity | exact H].
Qed.

Lemma getBaseUrl_spec_witness :
  getBaseUrl sampleDocument = "https://api.example.com/v1"%string.
Proof.
  destruct (getBaseUrl_spec sampleDocument) as [H _].
  apply (H (mkServer "https://api.example.com/v1") []). reflexivity.
Defined.

(** ** C9: the schema is not mutated *)

Section HeapFrame.
Context {W : Type} `{RT : Heap.Runtime W}.
Import Heap.
Local Abbreviation keeps h0 m := (Heap.keeps (W := W) h0 m).

Lemma keeps_ret {A} (h0 : heap) (a : A) : keeps h0 (ret a).
Proof. intros st H. exact H. Qed.

Lemma keeps_throw {A} (h0 : heap) (e : string) : keeps h0 (@throw W A e).
Proof. intros st H. exact H. Qed.

Lemma keeps_bind {A B} (h0 : heap) (m : M (heap * W) A)
    (k : A -> M (heap * W) B) :
  keeps h0 m -> (forall a, keeps h0 (k a)) -> keeps h0 (bind m k).
Proof.
  intros Hm Hk st H. unfold bind. specialize (Hm st H).
  destruct (m st) as [[a|e] st1]; [apply Hk|]; exact Hm.
Qed.

Lemma keeps_try_catch {A} (h0 : heap) (m : M (heap * W) A)
    (h : JsVal -> M (heap * W) A) :
  keeps h0 m -> (forall e, keeps h0 (h e)) -> keeps h0 (try_catch m h).
Proof.
  intros Hm Hh st H. unfold try_catch. specialize (Hm st H).
  destruct (m st) as [[a|e] st1]; [|apply Hh]; exact Hm.
Qed.

(** Reading a schema object leaves the heap as it is. *)
Lemma readSchema_state (l : loc) (st : heap * W) :
  (readSchema l st).2 = st.
Proof.
  unfold readSchema, unsupported, throw.
  destruct (st.1 !! l) as [[elems|fields]|]; try reflexivity.
  destruct (decode st.1 fields); reflexivity.
Qed.

Lemma keeps_readSchema (h0 : heap) (l : loc) : keeps h0 (readSchema l).
Proof. intros st H. rewrite readSchema_state. exact H. Qed.

Lemma keeps_includeProperty (h0 : heap) (required : list string)
    (p : string) :
  keeps h0 (includeProperty required p).
Proof.
  intros st H. unfold includeProperty.
  destruct (Js.includes required p); [exact H|].
  destruct (Math_random st.2); exact H.
Qed.

(** A cell allocated while [h0] is kept lies outside [h0]. *)
Lemma keeps_alloc_bind {B} (h0 : heap) (c : cell)
    (k : loc -> M (heap * W) B) :
  (forall l, h0 !! l = None -> keeps h0 (k l)) ->
  keeps h0 (bind (alloc c) k).
Proof.
  intros Hk st H. unfold bind, alloc.
  set (l := fresh (dom st.1)).
  assert (Hl : st.1 !! l = None) by (apply not_elem_of_dom, is_fresh).
  assert (Hl0 : h0 !! l = None).
  { destruct (h0 !! l) as [c0|] eqn:E; [|reflexivity].
    rewrite (lookup_weaken _ _ _ _ E H) in Hl. discriminate. }
  apply (Hk l Hl0). simpl. apply insert_subseteq_r; assumption.
Qed.

(** Writing to a cell outside [h0] keeps [h0]; writing to a cell of [h0]
    need not (see [assign_overwrites]). *)
Lemma keeps_push (h0 : heap) (l : loc) (v : hval) :
  h0 !! l = None -> keeps h0 (push l v).
Proof.
  intros Hl st H. unfold push.
  destruct (st.1 !! l) as [[elems|fields]|]; try exact H.
  simpl. apply insert_subseteq_r; assumption.
Qed.

Lemma keeps_assign (h0 : heap) (l : loc) (k : string) (v : hval) :
  h0 !! l = None -> keeps h0 (assign l k v).
Proof.
  intros Hl st H. unfold assign.
  destruct (st.1 !! l) as [[elems|fields]|]; try exact H.
  - destruct (arrayIndex k (length elems)); [|exact H].
    simpl. apply insert_subseteq_r; assumption.
  - simpl. apply insert_subseteq_r; assumption.
Qed.

(** A write to an object or array of the heap is seen by every holder of
    the reference, whichever code created the cell: the cells of a schema
    are as writable as those of a result. *)
Lemma assign_overwrites (l : loc) (k : string) (v : hval)
    (fields : list (string * hval)) (st : heap * W) :
  st.1 !! l = Some (CObj fields) ->
  (assign l k v st).2.1 !! l = Some (CObj (Js.set k v fields)).
Proof.
  intros H. unfold assign. rewrite H. simpl. apply lookup_insert_eq.
Qed.

Lemma push_appends (l : loc) (v : hval) (elems : list hval)
    (st : heap * W) :
  st.1 !! l = Some (CArr elems) ->
  (push l v st).2.1 !! l = Some (CArr (elems ++ [v])).
Proof.
  intros H. unfold push. rewrite H. simpl. apply lookup_insert_eq.
Qed.

Section Body.
Variable h0 : heap.
Variable rec : option loc -> M (heap * W) hval.
Hypothesis keeps_rec : forall s, keeps h0 (rec s).

Lemma keeps_generateSampleFromRef (ref : JsVal) :
  keeps h0 (generateSampleFromRef ref).
Proof.
  unfold generateSampleFromRef.
  destruct ref; try (intros st H; exact H).
  apply keeps_alloc_bind. intros l _. apply keeps_ret.
Qed.

Lemma keeps_pushItems (schema : loc) (n : nat) (items : loc) :
  h0 !! items = None -> keeps h0 (pushItems rec schema n items).
Proof.
  intros Hitems. induction n as [|n IH]; simpl; [apply keeps_ret|].
  apply keeps_bind; [apply keeps_readSchema|]. intros node.
  apply keeps_bind; [apply keeps_rec|]. intros v.
  apply keeps_bind; [apply keeps_push, Hitems|]. intros _. exact IH.
Qed.

Lemma keeps_generateArray (schema : loc) :
  keeps h0 (generateArray rec schema).
Proof.
  unfold generateArray.
  apply keeps_bind; [apply keeps_readSchema|]. intros node.
  apply keeps_alloc_bind. intros items Hitems.
  apply keeps_bind; [|intros _; apply keeps_ret].
  destruct (sc_items node); [apply keeps_pushItems, Hitems | apply keeps_ret].
Qed.

Lemma keeps_fillProperties (required : list string)
    (props : list (string * loc)) (obj : loc) :
  h0 !! obj = None -> keeps h0 (fillProperties rec required props obj).
Proof.
  intros Hobj. induction props as [|[k p] props IH]; simpl; [apply keeps_ret|].
  apply keeps_bind; [apply keeps_includeProperty|]. intros inc.
  apply keeps_bind; [|intros _; exact IH].
  destruct inc; [|apply keeps_ret].
  apply keeps_bind; [apply keeps_rec|]. intros v. apply keeps_assign, Hobj.
Qed.

Lemma keeps_generateObject (schema : loc) :
  keeps h0 (generateObject rec schema).
Proof.
  unfold generateObject. apply keeps_alloc_bind. intros obj Hobj.
  apply keeps_bind; [apply keeps_readSchema|]. intros node.
  apply keeps_bind.
  { destruct (sc_properties node);
      [apply keeps_fillProperties, Hobj | apply keeps_ret]. }
  intros _. apply keeps_bind; [apply keeps_readSchema|]. intros node'.
  apply keeps_bind; [|intros _; apply keeps_ret].
  destruct (sc_additionalProperties node') as [[[|]|ap]|];
    try apply keeps_ret.
  - apply keeps_assign, Hobj.
  - apply keeps_bind; [apply keeps_rec|]. intros v. apply keeps_assign, Hobj.
Qed.

Lemma keeps_generateSimpleSample (schema : loc) :
  keeps h0 (generateSimpleSample rec schema).
Proof.
  unfold generateSimpleSample.
  apply keeps_bind; [apply keeps_readSchema|]. intros node. cbv zeta.
  destruct (Js.truthy_str (s_type (sc_fields node))); [|apply keeps_ret].
  repeat match goal with
         | |- keeps _ (if ?b then _ else _) => destruct b
         end;
    try apply keeps_ret;
    try (unfold enumOr; destruct (sc_enum0 node);
         [apply keeps_ret | first [apply keeps_ret | intros st H; exact H]]).
  - apply keeps_generateArray.
  - apply keeps_generateObject.
Qed.

End Body.

Lemma keeps_generateSampleData (h0 : heap) :
  jsf_preserves ->
  forall depth schema, keeps h0 (generateSampleData depth schema).
Proof.
  intros Hjsf. induction depth as [|depth IH]; intros schema; simpl.
  - apply keeps_throw.
  - destruct schema as [l|]; [|apply keeps_ret].
    apply keeps_bind; [apply keeps_readSchema|]. intros node. cbv zeta.
    destruct (Js.truthy_val (s_ref (sc_fields node)));
      [apply keeps_generateSampleFromRef|].
    destruct (sc_example node); [apply keeps_ret|].
    destruct (sc_examples0 node); [apply keeps_ret|].
    apply keeps_try_catch.
    + intros st H. etransitivity; [exact H | apply Hjsf].
    + intros _. apply keeps_generateSimpleSample. exact IH.
Qed.

End HeapFrame.

(** The object at [1] of [personHeap] read as a schema. *)
Example personHeap_decode :
  Heap.decode personHeap personObject
  = Some (Heap.mkCell personFields None None None None
            (Some [("username"%string, 2%positive)]) None)
  /\ Heap.decode personHeap usernameObject
     = Some (Heap.mkCell usernameSchema None None None None None None).
Proof. split; reflexivity. Qed.




(** On that heap the call returns a new object at [5] holding the required
    property; the four cells of the schema are where they were. *)
Example personHeap_generation :
  let r := Heap.generateSampleData (RT := Heap.throwingRuntime) 3
             (Some 1%positive) (personHeap, []) in
  r.1 = Normal (Heap.HRef 5%positive)
  /\ r.2.1 = <[5%positive :=
                 Heap.CObj [("username"%string, Heap.HVal (JStr "examp"))]]>
               personHeap.
Proof. split; reflexivity. Qed.

(** Read back from the heap, the result is the one computed on the schema
    tree. *)
Example personHeap_agrees_with_tree :
  let r := Heap.generateSampleData (RT := Heap.throwingRuntime) 3
             (Some 1%positive) (personHeap, []) in
  match r.1 with
  | Normal v => Normal <$> Heap.readback 2 r.2.1 v
  | Thrown e => Some (Thrown e)
  end
  = Some (generateSampleData (RT := throwingRuntime) (Some personSchema) []).1.
Proof. reflexivity. Qed.

(** A stack too shallow for the nesting of the schema ends in the engine's
    exception, which the fallback lets through. *)
Example personHeap_shallow_stack :
  (Heap.generateSampleData (RT := Heap.throwingRuntime) 1
     (Some 1%positive) (personHeap, [])).1
  = Thrown (JStr "RangeError: Maximum call stack size exceeded").
Proof. reflexivity. Qed.

(** * Further properties of the generator *)

(** ** Numbers *)

(** X22.  Without bounds, [multipleOf] and a non-empty enum,
    [generateNumber] returns [50], the midpoint of the defaults [0] and
    [100], for a number and for an integer schema alike. *)
Theorem generateNumber_default (s : Schema) :
  (forall e l, s_enum s <> Some (e :: l)) ->
  s_minimum s = None ->
  s_maximum s = None ->
  s_exclusiveMinimum s = None ->
  s_exclusiveMaximum s = None ->
  s_multipleOf s = None ->
  generateNumber s = JNum 50.
Proof.
  intros Henum Hmin Hmax Hemin Hemax Hmul.
  unfold generateNumber.
  assert (Hv : numberValue s = 50%float).
  { unfold numberValue. rewrite Hmin, Hmax, Hemin, Hemax, Hmul.
    destruct (s_type s) as [t|]; [|reflexivity].
    destruct (String.eqb t "integer"); reflexivity. }
  rewrite Hv.
  destruct (s_enum s) as [[|e l]|] eqn:E; try reflexivity.
  exfalso. apply (Henum e l). reflexivity.
Qed.

Lemma generateNumber_default_witness :
  generateNumber integerSchema = JNum 50.
Proof.
  apply (generateNumber_default integerSchema); try reflexivity.
  intros e l; discriminate.
Defined.

(** X23.  A [multipleOf] that is falsy (zero, or not a number) is ignored:
    the result is the one for the schema without [multipleOf]. *)
Theorem generateNumber_falsy_multipleOf (s : Schema) :
  Js.truthy_num (s_multipleOf s) = false ->
  generateNumber s = generateNumber (withoutMultipleOf s).
Proof.
  intros Hm. unfold generateNumber, numberValue, withoutMultipleOf.
  cbn [s_enum s_type s_minimum s_maximum s_exclusiveMinimum
       s_exclusiveMaximum s_multipleOf].
  destruct (s_multipleOf s) as [m|]; [|reflexivity].
  rewrite Hm. reflexivity.
Qed.

Lemma generateNumber_falsy_multipleOf_witness :
  generateNumber zeroStepSchema = JNum 1.5.
Proof.
  rewrite (generateNumber_falsy_multipleOf zeroStepSchema); reflexivity.
Defined.

(** ** Strings *)

Section StringShape.
Context (now : string) (s : Schema).
Hypothesis no_enum : forall e l, s_enum s <> Some (e :: l).
Hypothesis no_format : forall f, s_format s = Some f -> recognizedFormat f = false.
Hypothesis no_pattern : Js.truthy_str (s_pattern s) = false.

(** Without enum, recognized format and pattern, [generateString] is the
    filler of the computed length. *)
Lemma generateString_filler :
  generateString now s
  = JStr (Js.substring0
            (Js.padEnd "example"
               (Z.min (Js.or_default (s_maxLength s) 10)
                      (Z.max (Js.or_default (s_minLength s) 3) 5)) "x")
            (Z.min (Js.or_default (s_maxLength s) 10)
                   (Z.max (Js.or_default (s_minLength s) 3) 5))).
Proof.
  unfold generateString.
  destruct (s_enum s) as [[|e l]|] eqn:E;
    try (exfalso; apply (no_enum e l); reflexivity).
  all: rewrite no_pattern.
  all: destruct (s_format s) as [f|] eqn:Ef; [|reflexivity].
  all: specialize (no_format f eq_refl); unfold recognizedFormat in no_format;
       simpl in no_format;
       repeat (apply orb_false_elim in no_format;
               destruct no_format as [?B no_format]).
  all: repeat match goal with H : String.eqb _ _ = false |- _ =>
                rewrite H; clear H end; reflexivity.
Qed.

End StringShape.

(** X4.  Without enum, recognized format and pattern, a [maxLength] of at
    least one is never exceeded, also when [minLength] is larger; and a
    [minLength] not above it is reached. *)
Theorem generateString_respects_maxLength (now : string) (s : Schema)
    (b : Z) :
  (forall e l, s_enum s <> Some (e :: l)) ->
  (forall f, s_format s = Some f -> recognizedFormat f = false) ->
  Js.truthy_str (s_pattern s) = false ->
  s_maxLength s = Some b ->
  1 <= b ->
  exists str,
    generateString now s = JStr str
    /\ Z.of_nat (String.length str) <= b
    /\ (forall a, s_minLength s = Some a -> a <= b ->
                  a <= Z.of_nat (String.length str)).
Proof.
  intros Henum Hfmt Hpat Hmax Hb.
  rewrite (generateString_filler now s Henum Hfmt Hpat), Hmax.
  eexists. split; [reflexivity|].
  assert (Hd : Js.or_default (Some b) 10 = b)
    by (unfold Js.or_default; destruct (Z.eqb_spec b 0); lia).
  rewrite Hd, length_padEnd_substring by lia.
  split; [lia|].
  intros a Ha Hab. rewrite Ha. unfold Js.or_default.
  destruct (Z.eqb_spec a 0); lia.
Qed.

Lemma generateString_respects_maxLength_witness :
  exists str,
    generateString "" contradictoryLengthSchema = JStr str
    /\ Z.of_nat (String.length str) <= 2
    /\ (forall a, s_minLength contradictoryLengthSchema = Some a -> a <= 2 ->
                  a <= Z.of_nat (String.length str)).
Proof.
  apply (generateString_respects_maxLength "" contradictoryLengthSchema 2).
  - intros e l; discriminate.
  - intros f; discriminate.
  - reflexivity.
  - reflexivity.
  - lia.
Defined.

Lemma first_piece_spec (sep : ascii) (s : string) :
  let first := List.hd EmptyString (Js.split sep s) in
  occurs sep first = false
  /\ (s = first \/ exists rest, s = (first +:+ String sep rest)%string).
Proof.
  simpl. pose proof (split_pieces_clean sep s) as Hall.
  pose proof (join_split sep s) as Hjoin.
  destruct (Js.split sep s) as [|p ps]; [inversion Hall; subst; simpl in *; auto|].
  inversion Hall as [|? ? Hp _]; subst. split; [exact Hp|].
  destruct ps as [|q ps]; [left; reflexivity|].
  right. exists (join sep (q :: ps)). reflexivity.
Qed.

(** X5.  For the format [date] (and no non-empty enum) the result is the
    clock reading up to its first ["T"]; for [date-time] it is the clock
    reading itself.  Length bounds and pattern play no part. *)
Theorem generateString_date_formats (now : string) (s : Schema) :
  (forall e l, s_enum s <> Some (e :: l)) ->
  (s_format s = Some "date"%string ->
   exists d,
     generateString now s = JStr d
     /\ occurs "T" d = false
     /\ (now = d \/ exists rest, now = (d +:+ String "T" rest)%string))
  /\ (s_format s = Some "date-time"%string -> generateString now s = JStr now).
Proof.
  intros Henum. unfold generateString.
  destruct (s_enum s) as [[|e l]|] eqn:E;
    try (exfalso; apply (Henum e l); reflexivity).
  all: split; intros ->; simpl; [|reflexivity].
  all: eexists; split; [reflexivity | apply first_piece_spec].
Qed.

Lemma generateString_date_formats_witness :
  exists d,
    generateString "2025-11-26T10:30:00.000Z" dateSchema = JStr d
    /\ occurs "T" d = false
    /\ ("2025-11-26T10:30:00.000Z"%string = d
        \/ exists rest,
             "2025-11-26T10:30:00.000Z"%string = (d +:+ String "T" rest)%string).
Proof.
  destruct (generateString_date_formats "2025-11-26T10:30:00.000Z" dateSchema)
    as [H _].
  - intros e l; discriminate.
  - apply H. reflexivity.
Defined.

Example dateSchema_value :
  generateString "2025-11-26T10:30:00.000Z" dateSchema = JStr "2025-11-26".
Proof. reflexivity. Qed.

(** ** Kinds *)


Section Shapes.
Context {W : Type} `{RT : Runtime W}.
Variable rec : Schema -> M W JsVal.
Variable s : Schema.
Hypothesis rec_returns : returnsOnNested rec s.


(** The loop of [generateObject] returns. *)
Lemma generateObject_fill_returns (w : W) :
  exists obj w1,
    match s_properties s with
    | Some props => fillProperties rec (default [] (s_required s)) props []
    | None => ret []
    end w = (Normal obj, w1).
Proof.
  destruct rec_returns as (_ & Rps & _).
  destruct (s_properties s) as [ps|]; [|eexists _, _; reflexivity].
  apply returns_fillProperties, Rps. reflexivity.
Qed.


End Shapes.



(** ** Arrays *)

(** X7.  With items whose [$ref]s are strings where set, and a [maxItems]
    of at least one, the array never has more than [maxItems] elements,
    also when [minItems] is larger; a [minItems] not above it is reached;
    and every element is a value returned by [generateSampleData] on the
    items schema. *)
Theorem generateArray_respects_maxItems (W : Type) (RT : Runtime W)
    (s items : Schema) (b : Z) (w : W) :
  refsTyped items = true ->
  s_items s = Some items ->
  s_maxItems s = Some b ->
  1 <= b ->
  exists l w',
    generateArray generateSampleNode s w = (Normal (JArr l), w')
    /\ Z.of_nat (length l) <= b
    /\ (forall a, s_minItems s = Some a -> a <= b -> a <= Z.of_nat (length l))
    /\ Forall (fun v => exists w0 w1,
                 generateSampleData (Some items) w0 = (Normal v, w1)) l.
Proof.
  intros Htyped Hitems Hmax Hb. unfold generateArray. rewrite Hitems.
  unfold bind.
  destruct (pushItems_spec (generateSampleNode items)
              (Z.to_nat (itemCount s))
              (returns_generateSampleNode items Htyped) [] w)
    as (l & w' & -> & Hlen & Hall).
  exists l, w'. split; [reflexivity|].
  assert (Hd : Js.or_default (Some b) 3 = b)
    by (unfold Js.or_default; destruct (Z.eqb_spec b 0); lia).
  unfold itemCount in Hlen. rewrite Hmax, Hd in Hlen.
  repeat split.
  - lia.
  - intros a Ha Hab. rewrite Ha in Hlen. unfold Js.or_default in Hlen.
    destruct (Z.eqb_spec a 0); lia.
  - exact Hall.
Qed.

Lemma generateArray_respects_maxItems_witness :
  exists l w',
    generateArray (generateSampleNode (RT := throwingRuntime))
                  tagsSchema []
    = (Normal (JArr l), w')
    /\ Z.of_nat (length l) <= 1
    /\ (forall a, s_minItems tagsSchema = Some a -> a <= 1 ->
                  a <= Z.of_nat (length l))
    /\ Forall (fun v => exists w0 w1,
                 generateSampleData (RT := throwingRuntime)
                   (Some usernameSchema) w0 = (Normal v, w1)) l.
Proof.
  apply (generateArray_respects_maxItems (list float) throwingRuntime
           tagsSchema usernameSchema 1 []).
  - reflexivity.
  - reflexivity.
  - reflexivity.
  - lia.
Defined.

(** ** Objects *)

Section SetKeys.
Context {V : Type}.

Lemma setOwn_keys_from (k k0 : string) (v : V) (o : list (string * V)) :
  In k0 (map fst (Js.setOwn k v o)) -> k0 = k \/ In k0 (map fst o).
Proof.
  induction o as [|[k' v'] o IH]; simpl.
  - intros [<-|[]]. left; reflexivity.
  - destruct (String.eqb_spec k' k) as [->|Hne]; simpl.
    + intros [<-|H]; auto.
    + intros [<-|H]; auto. destruct (IH H); auto.
Qed.

Lemma set_keys_from (k k0 : string) (v : V) (o : list (string * V)) :
  In k0 (map fst (Js.set k v o)) -> k0 = k \/ In k0 (map fst o).
Proof.
  unfold Js.set. destruct (String.eqb k "__proto__"); [auto|].
  apply setOwn_keys_from.
Qed.

Lemma set_NoDup (k : string) (v : V) (o : list (string * V)) :
  NoDup (map fst o) -> NoDup (map fst (Js.set k v o)).
Proof.
  unfold Js.set. destruct (String.eqb k "__proto__"); [auto|].
  induction o as [|[k' v'] o IH]; simpl; intros Hnd.
  - apply NoDup_singleton.
  - apply NoDup_cons in Hnd as [Hnotin Hnd'].
    destruct (String.eqb_spec k' k) as [->|Hne]; simpl.
    + apply NoDup_cons. split; assumption.
    + apply NoDup_cons. split; [|apply IH, Hnd'].
      intros Hin. apply list_elem_of_In in Hin.
      destruct (setOwn_keys_from _ _ _ _ Hin) as [->|Hin']; [contradiction|].
      apply Hnotin. apply list_elem_of_In. exact Hin'.
Qed.

Lemma set_binds (k : string) (v : V) (o : list (string * V)) :
  k <> "__proto__"%string -> In (k, v) (Js.set k v o).
Proof.
  intros Hk. unfold Js.set.
  destruct (String.eqb_spec k "__proto__"); [contradiction|].
  induction o as [|[k' v'] o IH]; simpl; [left; reflexivity|].
  destruct (String.eqb_spec k' k) as [->|Hne]; simpl; auto.
Qed.

End SetKeys.

Section ObjectKeys.
Context {W : Type} `{RT : Runtime W}.
Variable rec : Schema -> M W JsVal.

(** The loop adds only declared names and keeps the keys distinct. *)
Lemma fillProperties_keys (required : list string)
    (props : list (string * Schema)) (obj : list (string * JsVal)) (w : W) :
  Forall (fun kp => returns (rec (snd kp))) props ->
  NoDup (map fst obj) ->
  exists obj' w',
    fillProperties rec required props obj w = (Normal obj', w')
    /\ NoDup (map fst obj')
    /\ (forall k, In k (map fst obj') ->
                  In k (map fst obj) \/ In k (map fst props)).
Proof.
  intros Hret. revert obj w.
  induction Hret as [|[k p] props Hp _ IH]; intros obj w Hnd; simpl.
  - exists obj, w. auto.
  - simpl in Hp. unfold bind at 1.
    destruct (returns_includeProperty required k w) as (inc & w0 & ->).
    destruct inc.
    + unfold bind at 1. destruct (Hp w0) as (v & w1 & ->).
      destruct (IH (Js.set k v obj) w1 (set_NoDup k v obj Hnd))
        as (obj' & w' & -> & Hnd' & Hsub).
      exists obj', w'. repeat split; [exact Hnd'|].
      intros k0 Hk0. destruct (Hsub k0 Hk0) as [H|H]; [|auto].
      destruct (set_keys_from _ _ _ _ H) as [->|H']; auto.
    + destruct (IH obj w0 Hnd) as (obj' & w' & -> & Hnd' & Hsub).
      exists obj', w'. repeat split; [exact Hnd'|].
      intros k0 Hk0. destruct (Hsub k0 Hk0); auto.
Qed.

(** When every draw is above [0.3], every declared name other than
    ["__proto__"] is added. *)
Lemma fillProperties_high_draws (required : list string)
    (props : list (string * Schema)) (obj : list (string * JsVal)) (w : W) :
  Forall (fun kp => returns (rec (snd kp))) props ->
  (forall w0, PrimFloat.ltb 0.3 (Math_random w0).1 = true) ->
  exists obj' w',
    fillProperties rec required props obj w = (Normal obj', w')
    /\ (forall k, In k (map fst obj) -> In k (map fst obj'))
    /\ (forall k, In k (map fst props) -> k <> "__proto__"%string ->
                  In k (map fst obj')).
Proof.
  intros Hret Hdraw. revert obj w.
  induction Hret as [|[k p] props Hp _ IH]; intros obj w; simpl.
  - exists obj, w. repeat split; [auto | intros k []].
  - simpl in Hp. unfold bind at 1.
    assert (Hinc : exists w0, includeProperty required k w = (Normal true, w0)).
    { unfold includeProperty. destruct (Js.includes required k); [eauto|].
      specialize (Hdraw w). destruct (Math_random w) as [r w0].
      simpl in Hdraw. exists w0. rewrite Hdraw. reflexivity. }
    destruct Hinc as [w0 ->].
    unfold bind at 1. destruct (Hp w0) as (v & w1 & ->).
    destruct (IH (Js.set k v obj) w1) as (obj' & w' & -> & Hkeep & Hall).
    exists obj', w'. repeat split.
    + intros k0 Hk0. apply Hkeep, set_keeps_keys, Hk0.
    + intros k0 [<-|Hk0] Hne; [apply Hkeep, set_key_present, Hne | auto].
Qed.


End ObjectKeys.

(** X8.  On a schema whose nested schemas have strings for their [$ref]s
    where set, the keys of the generated object are distinct, and each is a
    declared property name, or ["additionalProperty"] when
    [additionalProperties] is [true] or a schema. *)
Theorem generateObject_keys (W : Type) (RT : Runtime W) (s : Schema) (w : W) :
  nestedRefsTyped s = true ->
  exists fields w',
    generateObject generateSampleNode s w = (Normal (JObj fields), w')
    /\ NoDup (map fst fields)
    /\ (forall k, In k (map fst fields) ->
          (exists ps, s_properties s = Some ps /\ In k (map fst ps))
          \/ (k = "additionalProperty"%string
              /\ s_additionalProperties s <> None
              /\ s_additionalProperties s <> Some (inl false))).
Proof.
  intros Hnested.
  destruct (returnsOnNested_generateSampleNode (RT := RT) s Hnested)
    as (_ & Rps & Rap).
  unfold generateObject. unfold bind at 1.
  assert (Hfill : exists obj w1,
             match s_properties s with
             | Some props =>
                 fillProperties generateSampleNode (default [] (s_required s))
                   props []
             | None => ret []
             end w = (Normal obj, w1)
             /\ NoDup (map fst obj)
             /\ (forall k, In k (map fst obj) ->
                   exists ps, s_properties s = Some ps /\ In k (map fst ps))).
  { destruct (s_properties s) as [ps|].
    - destruct (fillProperties_keys generateSampleNode
                  (default [] (s_required s)) ps [] w (Rps ps eq_refl)
                  (NoDup_nil_2))
        as (obj & w1 & Hrun & Hnd & Hsub).
      exists obj, w1. repeat split; [exact Hrun | exact Hnd |].
      intros k Hk. destruct (Hsub k Hk) as [[]|H]. eauto.
    - exists [], w. repeat split; [apply NoDup_nil_2 | intros k []]. }
  destruct Hfill as (obj & w1 & -> & Hnd & Hsub).
  destruct (s_additionalProperties s) as [[[|]|a]|] eqn:Eap.
  - eexists _, w1. repeat split; [apply set_NoDup, Hnd|].
    intros k Hk. destruct (set_keys_from _ _ _ _ Hk) as [->|H]; [|auto].
    right. repeat split; discriminate.
  - exists obj, w1. auto.
  - unfold bind. destruct (Rap a eq_refl w1) as (v & w2 & ->).
    eexists _, w2. repeat split; [apply set_NoDup, Hnd|].
    intros k Hk. destruct (set_keys_from _ _ _ _ Hk) as [->|H]; [|auto].
    right. repeat split; discriminate.
  - exists obj, w1. auto.
Qed.

Lemma generateObject_keys_witness :
  exists fields w',
    generateObject (RT := throwingRuntime)
      (generateSampleNode (RT := throwingRuntime)) openSchema []
    = (Normal (JObj fields), w')
    /\ NoDup (map fst fields)
    /\ (forall k, In k (map fst fields) ->
          (exists ps, s_properties openSchema = Some ps /\ In k (map fst ps))
          \/ (k = "additionalProperty"%string
              /\ s_additionalProperties openSchema <> None
              /\ s_additionalProperties openSchema <> Some (inl false))).
Proof.
  apply (generateObject_keys (list float) throwingRuntime openSchema []).
  reflexivity.
Defined.

(** X9.  When every [Math.random] draw is above [0.3], every declared
    property other than ["__proto__"] is a key of the generated object,
    required or not (the nested schemas having strings for their [$ref]s
    where set). *)
Theorem generateObject_high_draws (W : Type) (RT : Runtime W) (s : Schema)
    (ps : list (string * Schema)) (name : string) (w : W) :
  nestedRefsTyped s = true ->
  (forall w0, PrimFloat.ltb 0.3 (Math_random w0).1 = true) ->
  s_properties s = Some ps ->
  In name (map fst ps) ->
  name <> "__proto__"%string ->
  exists fields w',
    generateObject generateSampleNode s w = (Normal (JObj fields), w')
    /\ In name (map fst fields).
Proof.
  intros Hnested Hdraw Hps Hin Hne.
  destruct (returnsOnNested_generateSampleNode (RT := RT) s Hnested)
    as (_ & Rps & Rap).
  unfold generateObject. rewrite Hps. unfold bind at 1.
  destruct (fillProperties_high_draws generateSampleNode
              (default [] (s_required s)) ps [] w (Rps ps Hps) Hdraw)
    as (obj & w1 & -> & _ & Hall).
  specialize (Hall name Hin Hne).
  destruct (s_additionalProperties s) as [[[|]|a]|] eqn:Eap.
  - eexists _, w1. split; [reflexivity | apply set_keeps_keys, Hall].
  - exists obj, w1. auto.
  - unfold bind. destruct (Rap a eq_refl w1) as (v & w2 & ->).
    eexists _, w2. split; [reflexivity | apply set_keeps_keys, Hall].
  - exists obj, w1. auto.
Qed.

Lemma generateObject_high_draws_witness :
  exists fields w',
    generateObject (RT := fixedDrawRuntime 0.5)
      (generateSampleNode (RT := fixedDrawRuntime 0.5)) userSchema tt
    = (Normal (JObj fields), w')
    /\ In "age"%string (map fst fields).
Proof.
  eapply (generateObject_high_draws unit (fixedDrawRuntime 0.5) userSchema).
  - reflexivity.
  - intros w0. reflexivity.
  - reflexivity.
  - simpl. auto.
  - discriminate.
Defined.



(** X11.  With [additionalProperties: true] the generated object binds
    ["additionalProperty"] to ["value"], and with a schema as
    [additionalProperties] to a value [generateSampleData] returned for
    that schema; a declared property of that name is overwritten (the
    nested schemas having strings for their [$ref]s where set). *)
Theorem generateObject_additionalProperty (W : Type) (RT : Runtime W)
    (s : Schema) (w : W) :
  nestedRefsTyped s = true ->
  s_additionalProperties s <> None ->
  s_additionalProperties s <> Some (inl false) ->
  exists fields w' v,
    generateObject generateSampleNode s w = (Normal (JObj fields), w')
    /\ In ("additionalProperty"%string, v) fields
    /\ (s_additionalProperties s = Some (inl true) -> v = JStr "value")
    /\ (forall ap, s_additionalProperties s = Some (inr ap) ->
          exists w0 w1, generateSampleData (Some ap) w0 = (Normal v, w1)).
Proof.
  intros Hnested Hsome Hfalse.
  pose proof (returnsOnNested_generateSampleNode (RT := RT) s Hnested)
    as Hrec.
  unfold generateObject. unfold bind at 1.
  destruct (generateObject_fill_returns generateSampleNode s Hrec w)
    as (obj & w1 & ->).
  destruct Hrec as (_ & _ & Rap).
  destruct (s_additionalProperties s) as [[[|]|a]|] eqn:Eap;
    try contradiction.
  - eexists _, w1, (JStr "value").
    repeat split; [apply set_binds; discriminate|].
    intros ap; discriminate.
  - unfold bind. destruct (Rap a eq_refl w1) as (v & w2 & Hv). rewrite Hv.
    eexists _, w2, v.
    repeat split; [apply set_binds; discriminate | discriminate|].
    intros ap Hap. injection Hap as <-. exists w1, w2. exact Hv.
Qed.

Lemma generateObject_additionalProperty_witness :
  exists fields w' v,
    generateObject (RT := throwingRuntime)
      (generateSampleNode (RT := throwingRuntime)) openSchema []
    = (Normal (JObj fields), w')
    /\ In ("additionalProperty"%string, v) fields
    /\ (s_additionalProperties openSchema = Some (inl true) -> v = JStr "value")
    /\ (forall ap, s_additionalProperties openSchema = Some (inr ap) ->
          exists w0 w1,
            generateSampleData (RT := throwingRuntime) (Some ap) w0
            = (Normal v, w1)).
Proof.
  apply (generateObject_additionalProperty (list float) throwingRuntime
           openSchema []); [reflexivity | discriminate | discriminate].
Defined.

(** ** Examples *)

(** X21.  On a node without a truthy $ref, an [example] is returned as it
    is, [null] included, before [examples] and before any generation;
    without [example], the first element of a non-empty [examples] array is
    returned.  Neither consults [jsf.generate], the random source or the
    clock: the world is left as it was. *)
Theorem generateSampleData_examples (W : Type) (RT : Runtime W) (s : Schema)
    (w : W) :
  Js.truthy_val (s_ref s) = false ->
  (forall ex, s_example s = Some ex ->
              generateSampleData (Some s) w = (Normal ex, w))
  /\ (forall ex0 rest,
        s_example s = None ->
        s_examples s = Some (JArr (ex0 :: rest)) ->
        generateSampleData (Some s) w = (Normal ex0, w)).
Proof.
  intros Href. simpl. rewrite generateSampleNode_eq, Href. split.
  - intros ex ->. reflexivity.
  - intros ex0 rest -> ->. reflexivity.
Qed.

Lemma generateSampleData_examples_witness :
  generateSampleData (RT := constantRuntime (JStr "from jsf"))
    (Some nullExampleSchema) []
  = (Normal JNull, []).
Proof.
  destruct (generateSampleData_examples (list float)
              (constantRuntime (JStr "from jsf")) nullExampleSchema [] eq_refl)
    as [H _].
  apply H. reflexivity.
Defined.

(** * Properties of the operation list *)

Lemma pushParameters_app (source : list (Referenced ParameterObject))
    (params : list ParameterObject) :
  pushParameters source params = params ++ inlineOnly source.
Proof.
  unfold pushParameters, inlineOnly. revert params.
  induction source as [|[ref|p] source IH]; intros params; simpl.
  - rewrite app_nil_r. reflexivity.
  - apply IH.
  - rewrite IH, <- app_assoc. reflexivity.
Qed.

Lemma omap_length_le {A B} (f : A -> option B) (l : list A) :
  (length (omap f l) <= length l)%nat.
Proof.
  induction l as [|x l IH]; csimpl; [lia|].
  destruct (f x); csimpl; lia.
Qed.

(** X12.  [resolveParameters] returns the parameters of the path item that
    are not references, in order, followed by those of the operation:
    references are dropped, and an operation parameter does not replace a
    path-item parameter of the same name. *)
Theorem resolveParameters_spec (pathItem : PathItemObject)
    (operation : OperationObject) :
  resolveParameters pathItem operation
  = inlineOnly (default [] (pi_parameters pathItem))
    ++ inlineOnly (default [] (op_parameters operation)).
Proof.
  unfold resolveParameters.
  destruct (pi_parameters pathItem) as [pl|],
           (op_parameters operation) as [ol|]; simpl;
    rewrite ?pushParameters_app, ?app_nil_r; reflexivity.
Qed.

Lemma pushOperations_app (path : string) (pathItem : PathItemObject)
    (operations : list OperationInfo) :
  pushOperations path pathItem operations
  = operations ++ operationsOf path pathItem.
Proof.
  unfold pushOperations, operationsOf. generalize methods. intros ms.
  revert operations. induction ms as [|m ms IH]; intros operations; simpl.
  - rewrite app_nil_r. reflexivity.
  - rewrite IH. destruct (pathItemMethod pathItem m) as [operation|];
      [|reflexivity].
    rewrite <- app_assoc. reflexivity.
Qed.

Lemma getOperations_flat_map (spec : OpenAPIDocument) :
  getOperations spec
  = flat_map (fun entry : string * option PathItemObject =>
                match entry.2 with
                | Some pathItem => operationsOf entry.1 pathItem
                | None => []
                end)
             (default [] (doc_paths spec)).
Proof.
  unfold getOperations. destruct (doc_paths spec) as [paths|]; [|reflexivity].
  simpl default.
  assert (H : forall acc,
             fold_left (fun operations (entry : string * option PathItemObject) =>
                          match entry.2 with
                          | None => operations
                          | Some pathItem =>
                              pushOperations entry.1 pathItem operations
                          end) paths acc
             = acc ++ flat_map (fun entry : string * option PathItemObject =>
                                  match entry.2 with
                                  | Some pathItem => operationsOf entry.1 pathItem
                                  | None => []
                                  end) paths).
  { induction paths as [|[path [pathItem|]] paths IH]; intros acc; simpl.
    - rewrite app_nil_r. reflexivity.
    - rewrite IH, pushOperations_app, <- app_assoc. reflexivity.
    - apply IH. }
  apply (H []).
Qed.

(** X13.  [getOperations] lists, path by path in the order of [paths] and
    within a path in the order get, post, put, patch, delete, options,
    head, trace, one entry per operation that is present; a null path item
    and a document without [paths] give nothing. *)
Theorem getOperations_spec (spec : OpenAPIDocument) :
  getOperations spec
  = flat_map (fun entry : string * option PathItemObject =>
                match entry.2 with
                | Some pathItem => operationsOf entry.1 pathItem
                | None => []
                end)
             (default [] (doc_paths spec)).
Proof. apply getOperations_flat_map. Qed.

Lemma operationsOf_inv (path : string) (pathItem : PathItemObject)
    (oi : OperationInfo) :
  In oi (operationsOf path pathItem) <->
  exists method operation,
    In method methods
    /\ pathItemMethod pathItem method = Some operation
    /\ oi = mkOperationInfo path (toUpperCase method) operation
              (Some (resolveParameters pathItem operation))
              (resolveRequestBody operation).
Proof.
  unfold operationsOf. rewrite <- list_elem_of_In, list_elem_of_omap.
  split.
  - intros (m & Hm & Hf). apply list_elem_of_In in Hm.
    destruct (pathItemMethod pathItem m) as [operation|] eqn:E; [|discriminate].
    injection Hf as <-. exists m, operation. auto.
  - intros (m & operation & Hm & Hop & ->). exists m.
    split; [apply list_elem_of_In, Hm|]. rewrite Hop. reflexivity.
Qed.

Lemma getOperations_In (spec : OpenAPIDocument) (oi : OperationInfo) :
  In oi (getOperations spec) <->
  exists paths path pathItem method operation,
    doc_paths spec = Some paths
    /\ In (path, Some pathItem) paths
    /\ In method methods
    /\ pathItemMethod pathItem method = Some operation
    /\ oi = mkOperationInfo path (toUpperCase method) operation
              (Some (resolveParameters pathItem operation))
              (resolveRequestBody operation).
Proof.
  rewrite getOperations_flat_map, in_flat_map. split.
  - intros ([path [pathItem|]] & Hin & Hoi); simpl in Hoi; [|destruct Hoi].
    apply operationsOf_inv in Hoi as (m & operation & Hm & Hop & ->).
    destruct (doc_paths spec) as [paths|]; [|destruct Hin].
    exists paths, path, pathItem, m, operation. auto.
  - intros (paths & path & pathItem & m & operation & Hp & Hin & Hm & Hop & ->).
    rewrite Hp. exists (path, Some pathItem). split; [exact Hin|].
    simpl. apply operationsOf_inv. exists m, operation. auto.
Qed.

(** X14.  An entry is reported by [getOperations] exactly when it is the
    entry of an operation present under one of the eight methods of a
    non-null path item of [paths]; its method is the upper-case name, its
    parameters are those of [resolveParameters] and its request body that of
    [resolveRequestBody]. *)
Theorem getOperations_member (spec : OpenAPIDocument) (oi : OperationInfo) :
  In oi (getOperations spec) <->
  exists paths path pathItem method operation,
    doc_paths spec = Some paths
    /\ In (path, Some pathItem) paths
    /\ In method methods
    /\ pathItemMethod pathItem method = Some operation
    /\ oi = mkOperationInfo path (toUpperCase method) operation
              (Some (resolveParameters pathItem operation))
              (resolveRequestBody operation).
Proof. apply getOperations_In. Qed.

(** X15.  Every method reported by [getOperations] is one of the eight
    upper-case names, every entry carries a parameter list, and a document
    has at most eight operations per path. *)
Theorem getOperations_methods (spec : OpenAPIDocument) :
  Forall (fun oi =>
            In (oi_method oi)
               ["GET"; "POST"; "PUT"; "PATCH"; "DELETE"; "OPTIONS"; "HEAD";
                "TRACE"]%string
            /\ oi_parameters oi <> None) (getOperations spec)
  /\ (length (getOperations spec)
      <= 8 * length (default [] (doc_paths spec)))%nat.
Proof.
  split.
  - apply Forall_forall. intros oi Hoi. apply list_elem_of_In in Hoi.
    apply getOperations_In in Hoi
      as (paths & path & pathItem & m & operation & _ & _ & Hm & _ & ->).
    simpl. split; [|discriminate].
    unfold methods in Hm. simpl in Hm.
    repeat (destruct Hm as [<-|Hm]; [simpl; tauto|]). destruct Hm.
  - rewrite getOperations_flat_map.
    induction (default [] (doc_paths spec)) as [|[path [pathItem|]] paths IH];
      simpl; [lia | | lia].
    rewrite length_app.
    assert (Hle : (length (operationsOf path pathItem) <= 8)%nat).
    { unfold operationsOf.
      etransitivity; [apply omap_length_le | reflexivity]. }
    lia.
Qed.

(** * Properties of the command and of the loader *)

Lemma endsWith_spec (s suffix : string) :
  endsWith s suffix = true <-> exists stem, s = (stem +:+ suffix)%string.
Proof.
  induction s as [|c s IH].
  - change (endsWith EmptyString suffix)
      with (String.eqb EmptyString suffix || false).
    rewrite orb_false_r, String.eqb_eq. split.
    + intros <-. exists EmptyString. reflexivity.
    + intros [[|c p] H]; [exact H | discriminate].
  - change (endsWith (String c s) suffix)
      with (String.eqb (String c s) suffix || endsWith s suffix).
    rewrite orb_true_iff, String.eqb_eq, IH. split.
    + intros [<-|[p ->]]; [exists EmptyString | exists (String c p)];
        reflexivity.
    + intros [[|c' p] H]; [left; exact H|].
      injection H as <- ->. right. exists p. reflexivity.
Qed.

(** X16.  The file-name check accepts a name (returns null) exactly when
    the name ends in [.http]; the bare name [.http] is accepted. *)
Theorem validateInput_accepts (value : string) :
  validateInput value = None
  <-> exists stem, value = (stem +:+ ".http")%string.
Proof.
  unfold validateInput. destruct value as [|c value].
  - split; [discriminate|]. intros [[|c p] H]; discriminate.
  - rewrite <- endsWith_spec.
    destruct (endsWith (String c value) ".http"); simpl; split;
      congruence.
Qed.

Section Loader.
Context {W : Type} `{PR : ParserRuntime W}.

(** X17.  The loader of [src/openapi-parser.ts] never resolves to null.
    It resolves to the document [SwaggerParser.validate] returned, whose
    version starts with 3, or to one [SwaggerParser.bundle] returned.
    Otherwise the [try] block has thrown a value [caught], and the loader
    rejects, according to the message of [caught]: with a new error ["File
    not found: <path>"] when it mentions ["ENOENT"]; else with a new error
    ["Invalid JSON/YAML format: <message>"] when it mentions ["JSON"] or
    ["YAML"]; else with [caught] itself when it mentions ["Unsupported"];
    else with a new error ["Failed to parse OpenAPI specification:
    <message>"]. *)
Theorem validateAndParseOpenAPI_outcomes (filePath : string) (w : W) :
  match (OpenapiParser.validateAndParseOpenAPI filePath w).1 with
  | Resolved None => False
  | Resolved (Some api) =>
      (isOpenAPI3 api = true
       /\ exists w0 w1, SwaggerParser_validate filePath w0 = (Resolved api, w1))
      \/ exists w0 w1, SwaggerParser_bundle filePath w0 = (Resolved api, w1)
  | Rejected e =>
      exists caught : ThrownValue,
        (OpenapiParser.tryBlock filePath w).1 = Rejected caught
        /\ let message := OpenapiParser.errorMessageOf caught in
           if strIncludes message "ENOENT" then
             e = ErrorObject ("File not found: " +:+ filePath)
           else if strIncludes message "JSON" || strIncludes message "YAML"
           then e = ErrorObject ("Invalid JSON/YAML format: " +:+ message)
           else if strIncludes message "Unsupported" then e = caught
           else e = ErrorObject
                      ("Failed to parse OpenAPI specification: " +:+ message)
  end.
Proof.
  unfold OpenapiParser.validateAndParseOpenAPI.
  destruct (OpenapiParser.tryBlock filePath w) as [[r|caught] w1] eqn:Etry.
  - (* the try block returned *)
    simpl. revert Etry. unfold OpenapiParser.tryBlock. cbv zeta.
    destruct (SwaggerParser_validate filePath _) as [[api|e] w2] eqn:Ev;
      [|discriminate].
    destruct (isOpenAPI3 api) eqn:B3.
    { intros E. injection E as <- _. left. split; [exact B3|]. eauto. }
    destruct (isSwagger2 api); [|discriminate].
    destruct (SwaggerParser_bundle filePath _) as [[bundled|e] w3] eqn:Eb;
      [|discriminate].
    intros E. injection E as <- _. right. eauto.
  - (* the try block threw [caught] *)
    unfold OpenapiParser.catchBlock. cbv zeta.
    set (message := OpenapiParser.errorMessageOf caught).
    destruct (strIncludes message "ENOENT") eqn:B1.
    { simpl. exists caught. split; [reflexivity|].
      fold message. rewrite B1. reflexivity. }
    destruct (strIncludes message "JSON" || strIncludes message "YAML") eqn:B2.
    { simpl. exists caught. split; [reflexivity|].
      fold message. rewrite B1, B2. reflexivity. }
    destruct (strIncludes message "Unsupported") eqn:B3.
    { simpl. exists caught. split; [reflexivity|].
      fold message. rewrite B1, B2, B3. reflexivity. }
    simpl. exists caught. split; [reflexivity|].
    fold message. rewrite B1, B2, B3. reflexivity.
Qed.

(** X18.  For a document whose version is neither 3.x nor Swagger 2.0, the
    loader of [src/openapi-parser.ts] rejects with the "Unsupported API
    specification version" error naming the version found, provided that
    message mentions none of ["ENOENT"], ["JSON"] and ["YAML"]. *)
Theorem validateAndParseOpenAPI_unsupported (filePath : string) (w : W)
    (api : ParsedApi) :
  (SwaggerParser_validate filePath
     (console_log [LogString ("Parsing file: " +:+ filePath)%string] w)).1
  = Resolved api ->
  isOpenAPI3 api = false ->
  isSwagger2 api = false ->
  strIncludes (OpenapiParser.unsupportedMessage api) "ENOENT" = false ->
  strIncludes (OpenapiParser.unsupportedMessage api) "JSON" = false ->
  strIncludes (OpenapiParser.unsupportedMessage api) "YAML" = false ->
  (OpenapiParser.validateAndParseOpenAPI filePath w).1
  = Rejected (ErrorObject (OpenapiParser.unsupportedMessage api)).
Proof.
  intros Hv H3 H2 He Hj Hy.
  unfold OpenapiParser.validateAndParseOpenAPI, OpenapiParser.tryBlock.
  cbv zeta.
  destruct (SwaggerParser_validate filePath _) as [r w1]. simpl in Hv.
  subst r. rewrite H3, H2.
  unfold OpenapiParser.catchBlock. cbv zeta.
  cbn [OpenapiParser.errorMessageOf]. rewrite He, Hj, Hy. simpl orb.
  cbv iota.
  assert (Hu : strIncludes (OpenapiParser.unsupportedMessage api)
                 "Unsupported" = true) by reflexivity.
  rewrite Hu. reflexivity.
Qed.

(** X19.  The loader of the other copy ([part_002]) never rejects: it
    resolves to the validated 3.x document, to the bundled document of a
    Swagger 2.0 file, and to null in every other case, a failure of
    [SwaggerParser] included. *)
Theorem validateAndParseOpenAPI_part002_never_rejects (filePath : string)
    (w : W) :
  exists r w',
    Part002.validateAndParseOpenAPI filePath w = (Resolved r, w')
    /\ match r with
       | None =>
           forall api,
             (SwaggerParser_validate filePath w).1 = Resolved api ->
             isOpenAPI3 api = false
             /\ (isSwagger2 api = true ->
                 exists e,
                   (SwaggerParser_bundle filePath
                      (SwaggerParser_validate filePath w).2).1 = Rejected e)
       | Some doc =>
           exists api,
             (SwaggerParser_validate filePath w).1 = Resolved api
             /\ ((isOpenAPI3 api = true /\ doc = api)
                 \/ (isOpenAPI3 api = false /\ isSwagger2 api = true
                     /\ (SwaggerParser_bundle filePath
                           (SwaggerParser_validate filePath w).2).1
                        = Resolved doc))
       end.
Proof.
  unfold Part002.validateAndParseOpenAPI, Part002.tryBlock.
  destruct (SwaggerParser_validate filePath w) as [[api|e] w1]; simpl.
  - destruct (isOpenAPI3 api) eqn:B3.
    + eexists _, _. split; [reflexivity|]. exists api. auto.
    + destruct (isSwagger2 api) eqn:B2.
      * destruct (SwaggerParser_bundle filePath w1) as [[bundled|e] w2] eqn:Eb.
        -- eexists _, _. split; [reflexivity|]. exists api. split; [reflexivity|].
           right. auto.
        -- eexists _, _. split; [reflexivity|].
           intros api' Hapi. injection Hapi as <-. split; [exact B3|].
           intros _. exists e. reflexivity.
      * eexists _, _. split; [reflexivity|].
        intros api' Hapi. injection Hapi as <-. split; [exact B3|].
        rewrite B2. discriminate.
  - eexists _, _. split; [reflexivity|]. intros api; discriminate.
Qed.

End Loader.

Lemma validateAndParseOpenAPI_part002_never_rejects_witness :
  exists r w',
    Part002.validateAndParseOpenAPI (PR := scriptedParser) "api.yaml"
      (Resolved futureApi)
    = (Resolved r, w')
    /\ r = None.
Proof.
  destruct (validateAndParseOpenAPI_part002_never_rejects
              (PR := scriptedParser) "api.yaml" (Resolved futureApi))
    as (r & w' & Hrun & Hr).
  exists r, w'. split; [exact Hrun|].
  destruct r as [doc|]; [|reflexivity].
  destruct Hr as (api & Hapi & [[H3 _]|(_ & H2 & _)]);
    injection Hapi as <-; discriminate.
Defined.

Lemma validateAndParseOpenAPI_unsupported_witness :
  (OpenapiParser.validateAndParseOpenAPI (PR := scriptedParser)
     "api.yaml" (Resolved futureApi)).1
  = Rejected (ErrorObject
      "Unsupported API specification version. Expected OpenAPI 3.x or Swagger 2.0, but got: OpenAPI 4.0.0").
Proof.
  apply (validateAndParseOpenAPI_unsupported (PR := scriptedParser)
           "api.yaml" (Resolved futureApi) futureApi); reflexivity.
Defined.

(** * Results on the heap are new cells *)

Section HeapResults.
Context {W : Type} `{RT : Heap.Runtime W}.
Import Heap.
Local Abbreviation triple P m Q := (hoare (W := W) P m Q).

Lemma hoare_ret {A} (P : heap * W -> Prop) (a : A) :
  hoare P (ret a) (fun a' st => a' = a /\ P st).
Proof. intros st H. simpl. auto. Qed.

Lemma hoare_bind {A B} (P : heap * W -> Prop) (m : M (heap * W) A)
    (Q : A -> heap * W -> Prop) (k : A -> M (heap * W) B)
    (R : B -> heap * W -> Prop) :
  hoare P m Q -> (forall a, triple (Q a) (k a) R) -> hoare P (bind m k) R.
Proof.
  intros Hm Hk st H. unfold bind. specialize (Hm st H).
  destruct (m st) as [[a|e] st1]; [|exact I]. apply (Hk a st1 Hm).
Qed.

Lemma hoare_weaken {A} (P P' : heap * W -> Prop) (m : M (heap * W) A)
    (Q Q' : A -> heap * W -> Prop) :
  hoare P' m Q' -> (forall st, P st -> P' st) ->
  (forall a st, Q' a st -> Q a st) -> hoare P m Q.
Proof.
  intros Hm HP HQ st H. specialize (Hm st (HP st H)).
  destruct (m st) as [[a|e] st1]; [apply HQ, Hm | exact I].
Qed.

(** A computation that keeps every cell keeps the cell at [r]. *)
Lemma hoare_keeps {A} (m : M (heap * W) A) (r : loc) (c : cell) :
  (forall h0, Heap.keeps h0 m) ->
  triple (fun st => st.1 !! r = Some c) m (fun _ st => st.1 !! r = Some c).
Proof.
  intros Hkeeps st H. pose proof (Hkeeps st.1 st (reflexivity _)) as Hsub.
  destruct (m st) as [[a|e] st1]; [|exact I].
  simpl in Hsub. eapply lookup_weaken; eassumption.
Qed.

Section Body.
Variable rec : option loc -> M (heap * W) hval.
Hypothesis keeps_rec : forall s h0, Heap.keeps h0 (rec s).

Lemma objectAt_keeps {A} (m : M (heap * W) A) (r : loc) :
  (forall h0, Heap.keeps h0 m) ->
  triple (objectAt r) m (fun _ => objectAt r).
Proof.
  intros Hkeeps st [fields H].
  pose proof (hoare_keeps m r _ Hkeeps st H) as Hm.
  destruct (m st) as [[a|e] st1]; [|exact I]. exists fields. exact Hm.
Qed.

Lemma arrayAt_keeps {A} (m : M (heap * W) A) (r : loc) :
  (forall h0, Heap.keeps h0 m) ->
  triple (arrayAt r) m (fun _ => arrayAt r).
Proof.
  intros Hkeeps st [elems H].
  pose proof (hoare_keeps m r _ Hkeeps st H) as Hm.
  destruct (m st) as [[a|e] st1]; [|exact I]. exists elems. exact Hm.
Qed.

Lemma objectAt_assign (r : loc) (k : string) (v : hval) :
  triple (objectAt r) (assign r k v) (fun _ => objectAt r).
Proof.
  intros st [fields H]. unfold assign. rewrite H. simpl.
  eexists. apply lookup_insert_eq.
Qed.

Lemma arrayAt_push (r : loc) (v : hval) :
  triple (arrayAt r) (push r v) (fun _ => arrayAt r).
Proof.
  intros st [elems H]. unfold push. rewrite H. simpl.
  eexists. apply lookup_insert_eq.
Qed.

Lemma keeps_all_readSchema (l : loc) h0 : Heap.keeps h0 (readSchema (W := W) l).
Proof. apply keeps_readSchema. Qed.

Lemma objectAt_fillProperties (required : list string)
    (props : list (string * loc)) (r : loc) :
  triple (objectAt r) (fillProperties rec required props r)
        (fun _ => objectAt r).
Proof.
  induction props as [|[k p] props IH]; simpl.
  - intros st H. exact H.
  - eapply hoare_bind;
      [apply objectAt_keeps; intros h0; apply keeps_includeProperty|].
    intros inc.
    eapply hoare_bind with (Q := fun _ => objectAt r); [|intros ?; exact IH].
    destruct inc.
    + eapply hoare_bind; [apply objectAt_keeps; intros h0; apply keeps_rec|].
      intros v. apply objectAt_assign.
    + intros st H. exact H.
Qed.

Lemma arrayAt_pushItems (schema : loc) (n : nat) (r : loc) :
  triple (arrayAt r) (pushItems rec schema n r) (fun _ => arrayAt r).
Proof.
  induction n as [|n IH]; simpl.
  - intros st H. exact H.
  - eapply hoare_bind;
      [apply arrayAt_keeps; intros h0; apply keeps_readSchema|].
    intros node.
    eapply hoare_bind; [apply arrayAt_keeps; intros h0; apply keeps_rec|].
    intros v. eapply hoare_bind; [apply arrayAt_push|]. intros ?. exact IH.
Qed.

(** A normal end of [generateObject] returns a reference to an object
    that was not in the heap before. *)
Lemma generateObject_fresh (schema : loc) (h : heap) (w : W) :
  triple (fun st => st = (h, w)) (generateObject rec schema)
        (fun v st => exists r, v = HRef r /\ h !! r = None /\ objectAt r st).
Proof.
  unfold generateObject.
  eapply hoare_bind with
    (Q := fun r st => h !! r = None /\ objectAt r st).
  { intros st ->. unfold alloc. simpl. split.
    - apply not_elem_of_dom, is_fresh.
    - eexists. apply lookup_insert_eq. }
  intros r.
  assert (Hframe : forall A (m : M (heap * W) A),
             triple (objectAt r) m (fun _ => objectAt r) ->
             triple (fun st => h !! r = None /\ objectAt r st) m
                   (fun _ st => h !! r = None /\ objectAt r st)).
  { intros A m Hm st [Hr Hobj]. specialize (Hm st Hobj).
    destruct (m st) as [[a|e] st1]; [auto | exact I]. }
  eapply hoare_bind;
    [apply Hframe, objectAt_keeps; intros h0; apply keeps_readSchema|].
  intros node. eapply hoare_bind.
  { apply Hframe. destruct (sc_properties node);
      [apply objectAt_fillProperties | intros st H; exact H]. }
  intros ?. eapply hoare_bind;
    [apply Hframe, objectAt_keeps; intros h0; apply keeps_readSchema|].
  intros node'. eapply hoare_bind.
  { apply Hframe.
    destruct (sc_additionalProperties node') as [[[|]|ap]|];
      try (intros st H; exact H).
    - apply objectAt_assign.
    - eapply hoare_bind; [apply objectAt_keeps; intros h0; apply keeps_rec|].
      intros v. apply objectAt_assign. }
  intros ? st [Hr Hobj]. simpl. exists r. auto.
Qed.

Lemma generateArray_fresh (schema : loc) (h : heap) (w : W) :
  triple (fun st => st.1 = h) (generateArray rec schema)
        (fun v st => exists r, v = HRef r /\ h !! r = None /\ arrayAt r st).
Proof.
  unfold generateArray.
  eapply hoare_bind with (Q := fun _ st => st.1 = h).
  { intros st H. pose proof (readSchema_state schema st) as E.
    destruct (readSchema schema st) as [[node|e] st1]; [|exact I].
    simpl in E. subst st1. exact H. }
  intros node. cbv zeta.
  eapply hoare_bind with
    (Q := fun r st => h !! r = None /\ arrayAt r st).
  { intros st <-. unfold alloc. simpl. split.
    - apply not_elem_of_dom, is_fresh.
    - eexists. apply lookup_insert_eq. }
  intros r.
  assert (Hframe : forall A (m : M (heap * W) A),
             triple (arrayAt r) m (fun _ => arrayAt r) ->
             triple (fun st => h !! r = None /\ arrayAt r st) m
                    (fun _ st => h !! r = None /\ arrayAt r st)).
  { intros A m Hm st [Hr Harr]. specialize (Hm st Harr).
    destruct (m st) as [[a|e] st1]; [auto | exact I]. }
  eapply hoare_bind with
    (Q := fun _ st => h !! r = None /\ arrayAt r st).
  { apply Hframe. destruct (sc_items node);
      [apply arrayAt_pushItems | intros st H; exact H]. }
  intros ? st [Hr Harr]. simpl. exists r. auto.
Qed.

End Body.

End HeapResults.

(** X20.  On the heap, when [jsf.generate] leaves existing cells as they
    are, a normal end of the simplified generator on an object or array
    schema returns a reference to a cell that did not exist before the
    call, and that cell is an object, respectively an array: the returned
    cell is none of the schema's. *)
Theorem generateSimpleSample_result_is_new (W : Type) (RT : Heap.Runtime W)
    (depth : nat) (l : Heap.loc) (fields : list (string * Heap.hval))
    (node : Heap.SchemaCell) (t : string)
    (h h' : Heap.heap) (w w' : W) (v : Heap.hval) :
  Heap.jsf_preserves ->
  h !! l = Some (Heap.CObj fields) ->
  Heap.decode h fields = Some node ->
  s_type (Heap.sc_fields node) = Some t ->
  t = "object"%string \/ t = "array"%string ->
  Heap.generateSimpleSample (Heap.generateSampleData depth) l (h, w)
  = (Normal v, (h', w')) ->
  exists r c,
    v = Heap.HRef r
    /\ h !! r = None
    /\ h' !! r = Some c
    /\ match c with
       | Heap.CObj _ => t = "object"%string
       | Heap.CArr _ => t = "array"%string
       end.
Proof.
  intros Hjsf Hl Hnode Ht Hkind Hrun.
  assert (Hrec : forall s h0, Heap.keeps h0 (Heap.generateSampleData depth s))
    by (intros s h0; apply keeps_generateSampleData, Hjsf).
  unfold Heap.generateSimpleSample in Hrun. unfold bind at 1 in Hrun.
  unfold Heap.readSchema at 1 in Hrun. simpl in Hrun.
  rewrite Hl, Hnode in Hrun.
  rewrite Ht in Hrun. destruct Hkind as [-> | ->]; simpl in Hrun.
  - pose proof (generateObject_fresh _ Hrec l h w (h, w) eq_refl) as Hobj.
    rewrite Hrun in Hobj. destruct Hobj as (r & -> & Hr & fs & Hf).
    exists r, (Heap.CObj fs). auto.
  - pose proof (generateArray_fresh _ Hrec l h w (h, w) eq_refl) as Harr.
    rewrite Hrun in Harr. destruct Harr as (r & -> & Hr & elems & He).
    exists r, (Heap.CArr elems). auto.
Qed.

Lemma generateSimpleSample_result_is_new_witness :
  exists r c,
    Heap.HRef 5%positive = Heap.HRef r
    /\ personHeap !! r = None
    /\ (<[5%positive :=
            Heap.CObj [("username"%string, Heap.HVal (JStr "examp"))]]>
          personHeap) !! r = Some c
    /\ match c with
       | Heap.CObj _ => "object"%string = "object"%string
       | Heap.CArr _ => "object"%string = "array"%string
       end.
Proof.
  apply (generateSimpleSample_result_is_new (list float) Heap.throwingRuntime
           2 1%positive personObject
           (Heap.mkCell personFields None None None None
              (Some [("username"%string, 2%positive)]) None)
           "object"%string personHeap _ [] []).
  - intros l0 st. reflexivity.
  - reflexivity.
  - reflexivity.
  - reflexivity.
  - left; reflexivity.
  - reflexivity.
Defined.
